(** * auroadmin: the admin agent's dispatch server and chat widget

    A shallow embedding of the server route behind [/api/agent-chat] (the ten
    store handlers, the function registry and the [POST] dispatch loop) and
    of [src/components/AgentChatWidget.tsx] ([agentChat], [sendMessage]),
    together with the properties of the specification that concern them.

    Modelling conventions.
    - The backing store (Supabase/PostgREST) and the completion service are
      outside the program.  The store is a record of tables; every request to
      it is answered by a script [store_replies] that either lets the
      statement run or returns a [PostgrestError], in which case the statement
      has no effect (one request is one SQL statement).  A column that an
      insert leaves out is stored as [NULL] ([None]).
    - The system clock is a script as well: [clock w k] is the value of the
      [k]-th reading of [Date.now()], in milliseconds.  Timestamp columns are
      held in the same unit.
    - An [async] function is a function from the world to an outcome
      (returned value or thrown exception) and the world it leaves behind.
    - The messages of the runtime's own exceptions are written as V8 words
      them; no property depends on their text.
    - A string is the sequence of the UTF-8 bytes of its text, and a number
      that is not a count is an IEEE 754 double (the kernel's [float]). *)

From Stdlib Require Import Ascii QArith Qabs Qround.
From Stdlib Require Import PrimFloat SpecFloat FloatOps.
From stdpp Require Import base strings list gmap pretty.

Local Open Scope string_scope.
Local Open Scope list_scope.

(** ** JavaScript values and outcomes *)

(** Exceptions, by constructor: [new Error(m)] and the runtime's own
    [TypeError] and [SyntaxError]. *)
Inductive Exn : Type :=
  | Error (message : string)
  | TypeError (message : string)
  | SyntaxError (message : string).

Inductive Outcome (A : Type) : Type :=
  | Returns (a : A)
  | Throws (e : Exn).
Arguments Returns {A} a.
Arguments Throws {A} e.

(** The argument bag a handler receives: an object whose properties are
    strings, as every schema in [functions] declares them.  A property that is
    not there reads as [undefined] ([None]). *)
Abbreviation Args := (gmap string string).

(** [`${x}`] for a possibly undefined string. *)
Definition template (x : option string) : string :=
  match x with Some s => s | None => "undefined" end.

(** [x || d] for a possibly undefined string: the empty string is falsy. *)
Definition or_string (x : option string) (d : string) : string :=
  match x with
  | None => d
  | Some s => if String.eqb s EmptyString then d else s
  end.

(** [n || d] on numbers that are array lengths: zero is falsy. *)
Definition or_nat (n d : nat) : nat :=
  if Nat.eqb n 0 then d else n.

Definition dquote : string := String (Ascii.ascii_of_nat 34) EmptyString.

(** [xs.join(sep)]; [null] and [undefined] elements are rendered empty. *)
Fixpoint join (sep : string) (xs : list (option string)) : string :=
  match xs with
  | [] => EmptyString
  | [x] => default EmptyString x
  | x :: rest => default EmptyString x +:+ sep +:+ join sep rest
  end.

(** ** The backing store *)

Module Laundromat.
Record t : Type := mk
  { name : option string; address : option string;
    borough : option string; phone : option string }.
End Laundromat.

Module Machine.
Record t : Type := mk
  { machine_id : option string;
    laundromat_id : option string;
    machine_type : option string;
    current_status : string;
    average_monthly_revenue : option float;
    created_at : Z;
    updated_at : Z }.

Definition set_current_status (s : string) (m : t) : t :=
  mk (machine_id m) (laundromat_id m) (machine_type m) s
     (average_monthly_revenue m) (created_at m) (updated_at m).
End Machine.

Module User.
Record t : Type := mk
  { full_name : option string; email : option string; phone : option string }.
End User.

Module Driver.
Record t : Type := mk
  { full_name : option string; phone : option string; email : option string }.
End Driver.

Module Booking.
Record t : Type := mk
  { booking_id : string; status : string; created_at : Z }.

Definition set_status (s : string) (b : t) : t :=
  mk (booking_id b) s (created_at b).
End Booking.

Record Database : Type := mkDatabase
  { participating_laundromats : list Laundromat.t;
    machines : list Machine.t;
    users : list User.t;
    drivers : list Driver.t;
    bookings : list Booking.t }.

Definition with_laundromats (f : list Laundromat.t → list Laundromat.t) (d : Database) :=
  mkDatabase (f (participating_laundromats d)) (machines d) (users d) (drivers d) (bookings d).
Definition with_machines (f : list Machine.t → list Machine.t) (d : Database) :=
  mkDatabase (participating_laundromats d) (f (machines d)) (users d) (drivers d) (bookings d).
Definition with_users (f : list User.t → list User.t) (d : Database) :=
  mkDatabase (participating_laundromats d) (machines d) (f (users d)) (drivers d) (bookings d).
Definition with_drivers (f : list Driver.t → list Driver.t) (d : Database) :=
  mkDatabase (participating_laundromats d) (machines d) (users d) (f (drivers d)) (bookings d).
Definition with_bookings (f : list Booking.t → list Booking.t) (d : Database) :=
  mkDatabase (participating_laundromats d) (machines d) (users d) (drivers d) (f (bookings d)).

(** The error object of a store response; only [message] is ever read. *)
Record PostgrestError : Type := { message : string }.

(** [{ data, error }] *)
Record PostgrestResponse (A : Type) : Type := mkResponse
  { data : option A; error : option PostgrestError }.
Arguments mkResponse {A} data error.
Arguments data {A} p.
Arguments error {A} p.

Record World : Type := mkWorld
  { db : Database;
    clock : nat → Z;
    reads : nat;
    store_replies : nat → option PostgrestError;
    requests : nat }.

(** ** Asynchronous computations *)

Definition Async (A : Type) : Type := World → Outcome A * World.

Definition ret {A} (a : A) : Async A := λ w, (Returns a, w).
Definition throw {A} (e : Exn) : Async A := λ w, (Throws e, w).
Definition bind {A B} (m : Async A) (k : A → Async B) : Async B := λ w,
  match m w with
  | (Returns a, w') => k a w'
  | (Throws e, w') => (Throws e, w')
  end.

Notation "'await' x ← m ; k" := (bind m (λ x, k))
  (at level 20, x name, m at level 100, k at level 200, only parsing).

(** [Date.now()] *)
Definition Date_now : Async Z := λ w,
  (Returns (clock w (reads w)),
   mkWorld (db w) (clock w) (S (reads w)) (store_replies w) (requests w)).

(** One request to the store: the script decides whether the statement runs. *)
Definition store_request {A} (run : Database → A * Database)
  : Async (PostgrestResponse A) := λ w,
  match store_replies w (requests w) with
  | Some e =>
      (Returns (mkResponse None (Some e)),
       mkWorld (db w) (clock w) (reads w) (store_replies w) (S (requests w)))
  | None =>
      let '(a, d) := run (db w) in
      (Returns (mkResponse (Some a) None),
       mkWorld d (clock w) (reads w) (store_replies w) (S (requests w)))
  end.

(** [.from(t).insert([row]).select().single()] *)
Definition insert_single {R} (table : (list R → list R) → Database → Database)
    (row : R) : Async (PostgrestResponse R) :=
  store_request (λ d, (row, table (λ rows, rows ++ [row]) d)).

(** [.from(t).select(..)] with the filters folded into [p] *)
Definition select_where {R} (table : Database → list R) (p : R → bool)
  : Async (PostgrestResponse (list R)) :=
  store_request (λ d, (filter (λ r, p r = true) (table d), d)).

(** [.from(t).select(..).limit(n)] *)
Definition select_limit {R} (table : Database → list R) (n : nat)
  : Async (PostgrestResponse (list R)) :=
  store_request (λ d, (take n (table d), d)).

(** [.from(t).update(patch)] with the filters folded into [p], then [.select()]:
    the rows that match are patched in place and returned. *)
Definition update_where {R} (table : Database → list R)
    (with_table : (list R → list R) → Database → Database)
    (patch : R → R) (p : R → bool) : Async (PostgrestResponse (list R)) :=
  store_request (λ d,
    (patch <$> filter (λ r, p r = true) (table d),
     with_table (fmap (λ r, if p r then patch r else r)) d)).

(** ** The handlers *)

Definition Handler : Type := Args → Async string.

Definition addLaundromat : Handler := λ args,
  let name := args !! "name" in
  let address := args !! "address" in
  let borough := args !! "borough" in
  let phone := args !! "phone" in
  await r ← insert_single with_laundromats (Laundromat.mk name address borough phone);
  match error r with
  | Some e => throw (Error ("Failed to add laundromat: " +:+ message e))
  | None =>
      ret ("Laundromat " +:+ dquote +:+ template name +:+ dquote +:+ " at "
           +:+ template address +:+ " (" +:+ template borough
           +:+ ") added successfully.")
  end.

Definition is_offline (m : Machine.t) : bool :=
  String.eqb (Machine.current_status m) "Offline".

(** [`Found ${n} <what>: ${ids.join(', ')}`] *)
Definition found (n : nat) (what : string) (ids : list (option string)) : string :=
  "Found " +:+ pretty n +:+ " " +:+ what +:+ ": " +:+ join ", " ids.

Definition getOfflineMachines : Handler := λ _,
  await r ← select_where machines is_offline;
  match error r with
  | Some e => throw (Error ("Failed to get offline machines: " +:+ message e))
  | None =>
      match data r with
      | Some rows => ret (found (length rows) "offline machines" (Machine.machine_id <$> rows))
      | None => throw (TypeError "Cannot read properties of null (reading 'length')")
      end
  end.

Definition addMachine : Handler := λ args,
  let machine_id := args !! "machine_id" in
  let laundromat_id := args !! "laundromat_id" in
  let machine_type := args !! "machine_type" in
  let current_status := args !! "current_status" in
  await created ← Date_now;
  await updated ← Date_now;
  await r ← insert_single with_machines
              (Machine.mk machine_id laundromat_id machine_type
                 (or_string current_status "Available") None created updated);
  match error r with
  | Some e => throw (Error ("Failed to add machine: " +:+ message e))
  | None =>
      ret ("Machine " +:+ dquote +:+ template machine_id +:+ dquote +:+ " ("
           +:+ template machine_type +:+ ") added to laundromat "
           +:+ template laundromat_id +:+ ".")
  end.

Definition addUser : Handler := λ args,
  let full_name := args !! "full_name" in
  let email := args !! "email" in
  let phone := args !! "phone" in
  await r ← insert_single with_users (User.mk full_name email phone);
  match error r with
  | Some e => throw (Error ("Failed to add user: " +:+ message e))
  | None =>
      ret ("User " +:+ dquote +:+ template full_name +:+ dquote +:+ " ("
           +:+ template email +:+ ") added successfully.")
  end.

Definition addDriver : Handler := λ args,
  let full_name := args !! "full_name" in
  let phone := args !! "phone" in
  let email := args !! "email" in
  await r ← insert_single with_drivers (Driver.mk full_name phone email);
  match error r with
  | Some e => throw (Error ("Failed to add driver: " +:+ message e))
  | None =>
      ret ("Driver " +:+ dquote +:+ template full_name +:+ dquote +:+ " ("
           +:+ template phone +:+ ") added successfully.")
  end.

Definition is_pending (b : Booking.t) : bool :=
  String.eqb (Booking.status b) "Pending".

Definition getPendingBookings : Handler := λ _,
  await r ← select_where bookings is_pending;
  match error r with
  | Some e => throw (Error ("Failed to get pending bookings: " +:+ message e))
  | None =>
      match data r with
      | Some rows =>
          ret (found (length rows) "pending bookings"
                 ((λ b, Some (Booking.booking_id b)) <$> rows))
      | None => throw (TypeError "Cannot read properties of null (reading 'length')")
      end
  end.

(** The four probes are started in this order; each answer is kept in its own
    slot of the [Promise.all] result, whatever the order of arrival. *)
Definition getSystemHealth : Handler := λ _,
  await machinesStatus ← select_limit machines 1;
  await bookingsStatus ← select_limit bookings 1;
  await usersStatus ← select_limit users 1;
  await driversStatus ← select_limit drivers 1;
  let allHealthy :=
    negb (bool_decide (is_Some (error machinesStatus)))
    && negb (bool_decide (is_Some (error bookingsStatus)))
    && negb (bool_decide (is_Some (error usersStatus)))
    && negb (bool_decide (is_Some (error driversStatus))) in
  ret (if allHealthy
       then "System is healthy. All services operational."
       else "System issues detected. Some services may be degraded.").

(** The filters of the two sweeps: [.eq(column, value).lt(column, cutoff)] *)
Definition is_stuck (cutoff : Z) (m : Machine.t) : bool :=
  String.eqb (Machine.current_status m) "In Use"
  && (Machine.updated_at m <? cutoff)%Z.

Definition is_stale (cutoff : Z) (b : Booking.t) : bool :=
  String.eqb (Booking.status b) "Pending"
  && (Booking.created_at b <? cutoff)%Z.

(** [rows?.length || 0] *)
Definition affected {R} (rows : option (list R)) : nat :=
  or_nat (match rows with Some l => length l | None => 0 end) 0.

Definition triggerSelfHealing : Handler := λ _,
  (* 1. Check for machines stuck in "In Use" for too long *)
  await now ← Date_now;
  await stuck ← update_where machines with_machines
                  (Machine.set_current_status "Available")
                  (is_stuck (now - 24 * 60 * 60 * 1000)%Z);
  (* 2. Check for stale bookings *)
  await now' ← Date_now;
  await stale ← update_where bookings with_bookings
                  (Booking.set_status "Cancelled")
                  (is_stale (now' - 7 * 24 * 60 * 60 * 1000)%Z);
  if bool_decide (is_Some (error stuck)) || bool_decide (is_Some (error stale))
  then throw (Error "Failed to complete self-healing routine")
  else
    ret ("Self-healing complete. Reset " +:+ pretty (affected (data stuck))
         +:+ " stuck machines and " +:+ pretty (affected (data stale))
         +:+ " stale bookings.").

(** [acc[status] = (acc[status] || 0) + 1] on the accumulator object, kept as
    its list of entries in the order the keys were first seen.  (Statuses are
    taken to be ordinary words: keys that are array indices, which an object
    lists first, and names of [Object.prototype] members are left out of the
    model; nothing below depends on the success path of this handler.) *)
Fixpoint tally (acc : list (string * nat)) (status : string) : list (string * nat) :=
  match acc with
  | [] => [(status, 1)]
  | (k, n) :: rest =>
      if String.eqb k status then (k, or_nat n 0 + 1) :: rest
      else (k, n) :: tally rest status
  end.

Definition getMachineAnalytics : Handler := λ _,
  await r ← select_where machines (λ _, true);
  (* the [.then(({ data }) => ...)] callback: [error] is not looked at *)
  await r' ← match data r with
             | Some rows =>
                 let statusCounts := foldl tally [] (Machine.current_status <$> rows) in
                 ret (mkResponse (Some statusCounts) None)
             | None =>
                 throw (TypeError "Cannot read properties of null (reading 'reduce')")
             end;
  match error r' with
  | Some e => throw (Error ("Failed to get machine analytics: " +:+ message e))
  | None =>
      match data r' with
      | Some counts =>
          ret ("Machine Status Distribution: "
               +:+ join ", " ((λ '(status, count), Some (status +:+ ": " +:+ pretty count))
                              <$> counts))
      | None => throw (TypeError "Cannot convert undefined or null to object")
      end
  end.

(** JavaScript numbers are IEEE 754 doubles, the kernel's [float]; a revenue
    is held as the double the client receives. *)

(** The Number of an integer: the nearest double, ties to even. *)
Definition Z2float (z : Z) : float :=
  SF2Prim (binary_normalize prec emax z 0 false).

(** [x || 0] on a nullable number: both zeros and NaN are falsy. *)
Definition or_zero (x : option float) : float :=
  match x with
  | None => 0%float
  | Some q => if is_zero q || is_nan q then 0%float else q
  end.

(** A run of [n] zero digits. *)
Fixpoint zeros (n : nat) : string :=
  match n with O => EmptyString | S n => "0" +:+ zeros n end.

(** Step 11 of Number.prototype.toFixed (ECMA-262) for a real [x] with
    0 <= x < 10^21: the integer [n] nearest to [x * 10^f], the larger one on
    a tie, written with a point before its last [f] digits. *)
Definition fixed_digits (f : nat) (x : Q) : string :=
  let n := Qfloor (x * inject_Z (10 ^ Z.of_nat f) + (1 # 2))%Q in
  let m := pretty (Z.to_N n) in
  if Nat.eqb f 0 then m
  else
    let k := String.length m in
    let m := if Nat.leb k f then zeros (S f - k) +:+ m else m in
    let k := String.length m in
    String.substring 0 (k - f) m +:+ "." +:+ String.substring (k - f) f m.

Fixpoint drop_zeros (s : string) : string :=
  match s with
  | String a rest => if Ascii.eqb a "0"%char then drop_zeros rest else s
  | EmptyString => EmptyString
  end.

(** [d.ddde+n] for the integer [v]: its digits without the trailing zeros,
    and the number of digits that follow the first one as exponent. *)
Definition exponent_form (v : Z) : string :=
  let all := pretty (Z.to_N v) in
  let digits := String.rev (drop_zeros (String.rev all)) in
  let e := String.length all - 1 in
  match digits with
  | String d EmptyString => String d EmptyString +:+ "e+" +:+ pretty e
  | String d rest => String d EmptyString +:+ "." +:+ rest +:+ "e+" +:+ pretty e
  | EmptyString => EmptyString
  end.

(** Number::toString picks the digits for a double [x] of integer value [X]
    (here [X >= 10^21]): the fewest significant digits [k] whose decimal reads
    back as [x], and of the two candidates with [k] digits the one nearer to
    [X] (the even one on a tie).  The result is that decimal, as an integer. *)
Definition shortest_decimal (x : float) (X : Z) : Z :=
  let N := String.length (pretty (Z.to_N X)) in
  let candidate (k : nat) : option Z :=
    let T := (10 ^ Z.of_nat (N - k))%Z in
    let lo := (X / T * T)%Z in
    let hi := (lo + T)%Z in
    match PrimFloat.eqb (Z2float lo) x, PrimFloat.eqb (Z2float hi) x with
    | true, true =>
        Some (if (X - lo <? hi - X)%Z then lo
              else if (hi - X <? X - lo)%Z then hi
              else if Z.even (X / T) then lo else hi)
    | true, false => Some lo
    | false, true => Some hi
    | false, false => None
    end in
  default X
    (foldr (λ k later, match candidate k with Some v => Some v | None => later end)
       None (seq 1 17)).

(** [x.toFixed(f)] (ECMA-262, Number.prototype.toFixed): NaN and the
    infinities by name, a magnitude from 10^21 on as Number::toString writes
    it, and any other value by its [f] decimals, rounded from the exact value
    of the double. *)
Definition toFixed (f : nat) (x : float) : string :=
  match Prim2SF x with
  | S754_nan => "NaN"
  | S754_infinity s => if s then "-Infinity" else "Infinity"
  | S754_zero _ => fixed_digits f 0
  | S754_finite s m e =>
      let a := (inject_Z (Z.pos m) * Qpower 2 e)%Q in
      (if s then "-" else EmptyString)
      +:+ (if Qle_bool (inject_Z (10 ^ 21)) a
           then exponent_form (shortest_decimal (abs x) (Qfloor a))
           else fixed_digits f a)
  end.

Definition has_revenue (m : Machine.t) : bool :=
  bool_decide (is_Some (Machine.average_monthly_revenue m)).

Definition getRevenueAnalytics : Handler := λ _,
  await r ← select_where machines has_revenue;
  match error r with
  | Some e => throw (Error ("Failed to get revenue analytics: " +:+ message e))
  | None =>
      match data r with
      | Some rows =>
          let totalRevenue :=
            foldl (λ sum machine, sum + or_zero (Machine.average_monthly_revenue machine))%float
                  0%float rows in
          let avgRevenue := (totalRevenue / Z2float (Z.of_nat (or_nat (length rows) 1)))%float in
          ret ("Total Monthly Revenue: $" +:+ toFixed 2 totalRevenue
               +:+ ", Average per Machine: $" +:+ toFixed 2 avgRevenue)
      | None => throw (TypeError "Cannot read properties of null (reading 'reduce')")
      end
  end.

(** ** The function registry *)

Module Fn.
(** One entry of [functions]; every property is declared of type string, so
    a property is its name and its description. *)
Record schema : Type := mk
  { name : string;
    description : string;
    properties : list (string * string);
    required : option (list string) }.
End Fn.

Definition functions : list Fn.schema :=
  [ Fn.mk "addLaundromat" "Add a new laundromat to the system"
      [ ("name", "Name of the laundromat");
        ("address", "Address of the laundromat");
        ("borough", "Borough");
        ("phone", "Phone number") ]
      (Some ["name"; "address"; "borough"]);
    Fn.mk "addMachine" "Add a new machine to a laundromat"
      [ ("machine_id", "Machine ID");
        ("laundromat_id", "Laundromat ID");
        ("machine_type", "Type of machine (e.g., Washer, Dryer)");
        ("current_status", "Current status (e.g., Available, In Use)") ]
      (Some ["machine_id"; "laundromat_id"; "machine_type"]);
    Fn.mk "addUser" "Add a new user to the system"
      [ ("full_name", "Full name");
        ("email", "Email address");
        ("phone", "Phone number") ]
      (Some ["full_name"; "email"]);
    Fn.mk "addDriver" "Add a new driver to the system"
      [ ("full_name", "Full name");
        ("phone", "Phone number");
        ("email", "Email address") ]
      (Some ["full_name"; "phone"]);
    Fn.mk "getOfflineMachines" "Get a list of all offline machines" [] None;
    Fn.mk "getPendingBookings" "Get a list of all pending bookings" [] None;
    Fn.mk "getSystemHealth" "Get the current health status of the system" [] None;
    Fn.mk "triggerSelfHealing"
      "Trigger the self-healing routine to resolve operational issues" [] None;
    Fn.mk "getMachineAnalytics" "Get analytics about machine status distribution" [] None;
    Fn.mk "getRevenueAnalytics" "Get revenue analytics across all machines" [] None ].

(** The own properties of the [functionMap] object literal. *)
Definition functionMap : gmap string Handler :=
  list_to_map
    [ ("addLaundromat", addLaundromat);
      ("addMachine", addMachine);
      ("addUser", addUser);
      ("addDriver", addDriver);
      ("getOfflineMachines", getOfflineMachines);
      ("getPendingBookings", getPendingBookings);
      ("getSystemHealth", getSystemHealth);
      ("triggerSelfHealing", triggerSelfHealing);
      ("getMachineAnalytics", getMachineAnalytics);
      ("getRevenueAnalytics", getRevenueAnalytics) ].

(** [functionMap] is an object literal, so [functionMap[name]] also finds
    what the object inherits from [Object.prototype] (ECMA-262, 20.1.3 and
    B.2.2). *)
Inductive ObjectPrototypeMember : Type :=
  | constructor_
  | defineGetter
  | defineSetter
  | hasOwnProperty
  | lookupGetter
  | lookupSetter
  | isPrototypeOf
  | propertyIsEnumerable
  | toString
  | valueOf
  | proto
  | toLocaleString.

Definition Object_prototype : gmap string ObjectPrototypeMember :=
  list_to_map
    [ ("constructor", constructor_);
      ("__defineGetter__", defineGetter);
      ("__defineSetter__", defineSetter);
      ("hasOwnProperty", hasOwnProperty);
      ("__lookupGetter__", lookupGetter);
      ("__lookupSetter__", lookupSetter);
      ("isPrototypeOf", isPrototypeOf);
      ("propertyIsEnumerable", propertyIsEnumerable);
      ("toString", toString);
      ("valueOf", valueOf);
      ("__proto__", proto);
      ("toLocaleString", toLocaleString) ].

Inductive Property : Type :=
  | Own (h : Handler)
  | Inherited (m : ObjectPrototypeMember).

(** [functionMap[name]]; [None] is [undefined], every property found is truthy
    (eleven functions and, under [__proto__], the prototype object itself). *)
Definition functionMap_get (name : string) : option Property :=
  match functionMap !! name with
  | Some h => Some (Own h)
  | None => Inherited <$> Object_prototype !! name
  end.

(** What a call through [functionMap[name](parsedArgs)] can produce. *)
Inductive JsValue : Type :=
  | VUndefined
  | VBoolean (b : bool)
  | VString (s : string)
  | VArgs (a : Args)
  | VFunctionMap.

(** [ToPropertyKey] of an argument bag: its own properties are strings, so an
    own [toString] hides the inherited method and the conversion fails. *)
Definition ToPropertyKey (a : Args) : Outcome string :=
  match a !! "toString" with
  | Some _ => Throws (TypeError "Cannot convert object to primitive value")
  | None => Returns "[object Object]"
  end.

(** The inherited members, called with [this = functionMap] and one argument. *)
Definition call_inherited (m : ObjectPrototypeMember) (a : Args) : Outcome JsValue :=
  match m with
  | constructor_ => Returns (VArgs a)
  | defineGetter => Throws (TypeError "Object.prototype.__defineGetter__: Expecting function")
  | defineSetter => Throws (TypeError "Object.prototype.__defineSetter__: Expecting function")
  | hasOwnProperty | propertyIsEnumerable =>
      match ToPropertyKey a with
      | Returns key => Returns (VBoolean (bool_decide (is_Some (functionMap !! key))))
      | Throws e => Throws e
      end
  | lookupGetter | lookupSetter =>
      match ToPropertyKey a with
      | Returns _ => Returns VUndefined
      | Throws e => Throws e
      end
  | isPrototypeOf => Returns (VBoolean false)
  | toString | toLocaleString => Returns (VString "[object Object]")
  | valueOf => Returns VFunctionMap
  | proto => Throws (TypeError "functionMap[name] is not a function")
  end.

(** [await functionMap[name](parsedArgs)] *)
Definition call (p : Property) (a : Args) : Async JsValue :=
  match p with
  | Own h => await s ← h a; ret (VString s)
  | Inherited m => λ w, (call_inherited m a, w)
  end.

(** ** The completion service *)

Module Chat.
Record function_call_t : Type := mkCall
  { name : string; arguments : string }.

(** A message, as sent and as received; [None] is [null] or absent. *)
Record message_t : Type := mkMessage
  { role : string;
    content : option string;
    function_name : option string;
    function_call : option function_call_t }.

Record choice_t : Type := mkChoice
  { finish_reason : option string; message : option message_t }.

(** The parsed body of a completion response. *)
Record completion : Type := mkCompletion
  { choices : option (list choice_t) }.

(** The body of a request to [/v1/chat/completions], with its bearer key. *)
Record request : Type := mkRequest
  { bearer : string;
    model : string;
    messages : list message_t;
    functions : option (list Fn.schema);
    temperature : Q;
    max_tokens : nat }.
End Chat.

(** What [fetch] settles to.  [json] is the body read as JSON, [None] when
    the body is no JSON and [.json()] rejects. *)
Record FetchResponse (J : Type) : Type := mkFetchResponse
  { ok : bool; text : string; json : option J }.
Arguments mkFetchResponse {J} ok text json.
Arguments ok {J} f.
Arguments text {J} f.
Arguments json {J} f.

Inductive Fetch (J : Type) : Type :=
  | Rejected (e : Exn)
  | Responded (r : FetchResponse J).
Arguments Rejected {J} e.
Arguments Responded {J} r.

Record Env : Type := mkEnv
  { OPENAI_API_KEY : option string;
    chat_completions : Chat.request → Fetch Chat.completion }.

(** One turn of the widget's history, as it arrives in the request body. *)
Record Turn : Type := mkTurn { role : string; content : string }.

Record RequestBody : Type := mkRequestBody
  { query : string; history : option (list Turn) }.

(** [NextResponse.json(body, { status })] *)
Inductive Body : Type :=
  | reply (s : string)
  | error_body (s : string).

Record HttpResponse : Type := mkHttpResponse { status : nat; body : Body }.

Definition fetch {J} (answer : Fetch J) : Async (FetchResponse J) :=
  match answer with
  | Rejected e => throw e
  | Responded r => ret r
  end.

(** [await response.json()] *)
Definition response_json {J} (r : FetchResponse J) : Async J :=
  match json r with
  | Some j => ret j
  | None => throw (SyntaxError "Unexpected token in JSON")
  end.

(** [data.choices?.[0]] *)
Definition first_choice (data : Chat.completion) : option Chat.choice_t :=
  Chat.choices data ≫= head.

(** [choice?.finish_reason === 'function_call' && choice.message?.function_call] *)
Definition function_call_signal (choice : option Chat.choice_t)
  : option Chat.function_call_t :=
  match choice with
  | Some c =>
      if bool_decide (Chat.finish_reason c = Some "function_call")
      then Chat.message c ≫= Chat.function_call
      else None
  | None => None
  end.

(** [choice?.message?.content] *)
Definition message_content (choice : option Chat.choice_t) : option string :=
  (choice ≫= Chat.message) ≫= Chat.content.

Section Dispatch.
(** [JSON.parse] on an argument payload ([None]: it throws) and
    [JSON.stringify] on a call's result ([None]: [undefined]) belong to the
    runtime.  A payload that parses is taken to parse to an argument bag, the
    shape the schemas ask the model for. *)
Variable JSON_parse : string → option Args.
Variable JSON_stringify : JsValue → option string.

Definition system_prompt : string :=
  "You are an agentic admin assistant for a laundromat platform. Answer questions, execute admin actions, and help the user manage the system.".

Definition build_messages (req : RequestBody) : list Chat.message_t :=
  [Chat.mkMessage "system" (Some system_prompt) None None]
  ++ ((λ m, Chat.mkMessage
              (if String.eqb (role m) "agent" then "assistant" else role m)
              (Some (content m)) None None)
      <$> default [] (history req))
  ++ [Chat.mkMessage "user" (Some (query req)) None None].

(** The second round: the result goes back to the model, whose answer is
    the reply. *)
Definition follow_up (env : Env) (apiKey : string)
    (messages : list Chat.message_t) (fc : Chat.function_call_t)
    (result : JsValue) : Async HttpResponse :=
  (* Send result back to LLM for final response *)
  await followup ← fetch (chat_completions env
    (Chat.mkRequest ("Bearer " +:+ apiKey) "gpt-4-0613"
       (messages
        ++ [ Chat.mkMessage "assistant" None None (Some fc);
             Chat.mkMessage "function" (JSON_stringify result)
               (Some (Chat.name fc)) None ])
       None (2 # 10) 512));
  await followupData ← response_json followup;
  ret (mkHttpResponse 200
         (reply (or_string (message_content (first_choice followupData))
                   "Action completed."))).

(** The rest of the loop once [functionMap[name]] is truthy. *)
Definition call_and_follow_up (env : Env) (apiKey : string)
    (messages : list Chat.message_t) (fc : Chat.function_call_t)
    (callee : Property) (parsedArgs : Args) : Async HttpResponse :=
  await result ← call callee parsedArgs;
  follow_up env apiKey messages fc result.

Definition POST (env : Env) (req : RequestBody) : Async HttpResponse :=
  match OPENAI_API_KEY env with
  | None => ret (mkHttpResponse 500 (error_body "Missing OpenAI API key"))
  | Some apiKey =>
      if String.eqb apiKey EmptyString
      then ret (mkHttpResponse 500 (error_body "Missing OpenAI API key"))
      else
        let messages := build_messages req in
        (* Call OpenAI with function calling *)
        await response ← fetch (chat_completions env
          (Chat.mkRequest ("Bearer " +:+ apiKey) "gpt-4-0613" messages
             (Some functions) (2 # 10) 512));
        if negb (ok response)
        then ret (mkHttpResponse 500 (error_body (text response)))
        else
          await data ← response_json response;
          let choice := first_choice data in
          let direct :=
            ret (mkHttpResponse 200
                   (reply (or_string (message_content choice)
                             "Sorry, I could not generate a response."))) in
          match function_call_signal choice with
          | Some fc =>
              (* LLM wants to call a function *)
              match functionMap_get (Chat.name fc) with
              | Some callee =>
                  let parsedArgs := default ∅ (JSON_parse (Chat.arguments fc)) in
                  call_and_follow_up env apiKey messages fc callee parsedArgs
              | None => direct
              end
          | None => direct
          end
  end.
End Dispatch.

(** ** The chat widget (AgentChatWidget.tsx) *)

Module AgentChatWidget.
(** The body of a request to [/api/agent-chat]. *)
Record request : Type := mkRequest
  { query : string; history : list Turn }.

(** The parsed body of an answer: [data.reply], when it is there. *)
Record answer : Type := mkAnswer { reply : option string }.

(** The network, seen from the widget: the script of what each [fetch] in
    turn settles to, and the requests sent so far. *)
Record Network : Type := mkNetwork
  { answers : nat → Fetch answer; sent : list request }.

Definition Client (A : Type) : Type := Network → Outcome A * Network.

(** [await fetch('/api/agent-chat', { ..., body })] *)
Definition fetch_agent_chat (rq : request) : Client (FetchResponse answer) := λ net,
  let net' := mkNetwork (answers net) (sent net ++ [rq]) in
  match answers net (length (sent net)) with
  | Rejected e => (Throws e, net')
  | Responded r => (Returns r, net')
  end.

Definition agentChat (query : string) (history : list Turn) : Client string := λ net,
  match fetch_agent_chat (mkRequest query history) net with
  | (Throws e, net') => (Throws e, net')
  | (Returns res, net') =>
      if negb (ok res)
      then (Returns "Sorry, there was an error contacting the agent.", net')
      else
        match json res with
        | None => (Throws (SyntaxError "Unexpected token in JSON"), net')
        | Some data =>
            (Returns (or_string (reply data) "Sorry, I could not generate a response."),
             net')
        end
  end.

(** The component's state variables. *)
Record State : Type := mkState
  { open : bool; input : string; loading : bool; history_ : list Turn }.

Definition setInput (v : string) (st : State) : State :=
  mkState (open st) v (loading st) (history_ st).
Definition setLoading (v : bool) (st : State) : State :=
  mkState (open st) (input st) v (history_ st).
Definition setHistory (f : list Turn → list Turn) (st : State) : State :=
  mkState (open st) (input st) (loading st) (f (history_ st)).

(** Strings are the UTF-8 bytes of the text.  The white space that
    [String.prototype.trim] strips (ECMA-262 WhiteSpace and LineTerminator):
    the six ASCII characters, U+00A0 in two bytes, and in three bytes U+1680,
    U+2000 to U+200A, U+2028, U+2029, U+202F, U+205F, U+3000 and U+FEFF. *)
Definition is_space2 (a b : ascii) : bool :=
  Nat.eqb (nat_of_ascii a) 194 && Nat.eqb (nat_of_ascii b) 160.

Definition is_space3 (a b c : ascii) : bool :=
  let a := nat_of_ascii a in
  let b := nat_of_ascii b in
  let c := nat_of_ascii c in
  (Nat.eqb a 225 && Nat.eqb b 154 && Nat.eqb c 128)
  || (Nat.eqb a 226 && Nat.eqb b 128
      && (Nat.leb 128 c && Nat.leb c 138 || Nat.eqb c 168 || Nat.eqb c 169 || Nat.eqb c 175))
  || (Nat.eqb a 226 && Nat.eqb b 129 && Nat.eqb c 159)
  || (Nat.eqb a 227 && Nat.eqb b 128 && Nat.eqb c 128)
  || (Nat.eqb a 239 && Nat.eqb b 187 && Nat.eqb c 191).

(** The white space at the front of [s] removed; with [backwards], [s] is a
    text read from its end and the bytes of a character come last first. *)
Fixpoint trimStart (backwards : bool) (s : string) : string :=
  match s with
  | String a r1 =>
      if Ascii.is_space a then trimStart backwards r1
      else
        match r1 with
        | String b r2 =>
            if (if backwards then is_space2 b a else is_space2 a b)
            then trimStart backwards r2
            else
              match r2 with
              | String c r3 =>
                  if (if backwards then is_space3 c b a else is_space3 a b c)
                  then trimStart backwards r3
                  else s
              | EmptyString => s
              end
        | EmptyString => s
        end
  | EmptyString => EmptyString
  end.

(** [s.trim()] *)
Definition trim (s : string) : string :=
  String.rev (trimStart true (String.rev (trimStart false s))).

(** One submission, run to the point where the [async] function settles:
    how it settles, the state the component is left in, and the network.
    [input] and [history] are the values of the render that created the
    closure, which are those of the state when the form is submitted. *)
Definition sendMessage (st : State) (net : Network) : Outcome () * State * Network :=
  let input := input st in
  let history := history_ st in
  if String.eqb (trim input) EmptyString then (Returns (), st, net)
  else
    let userMsg := mkTurn "user" input in
    let st := setHistory (λ h, h ++ [userMsg]) st in
    let st := setInput EmptyString st in
    let st := setLoading true st in
    match agentChat input (history ++ [userMsg]) net with
    | (Throws e, net') => (Throws e, st, net')
    | (Returns agentReply, net') =>
        let st := setHistory (λ h, h ++ [mkTurn "agent" agentReply]) st in
        let st := setLoading false st in
        (Returns (), st, net')
    end.
End AgentChatWidget.

(** ** Substrings *)

(** [hay.includes(needle)] *)
Fixpoint occurs (needle hay : string) : bool :=
  String.prefix needle hay
  || match hay with
     | String _ rest => occurs needle rest
     | EmptyString => false
     end.

(** ** The sweeps, row by row *)

Definition day_ms : Z := 24 * 60 * 60 * 1000.

(** What the first sweep does to a machine row, and the second to a booking. *)
Definition heal_machine (now : Z) (m : Machine.t) : Machine.t :=
  if is_stuck (now - day_ms) m then Machine.set_current_status "Available" m else m.

Definition heal_booking (now : Z) (b : Booking.t) : Booking.t :=
  if is_stale (now - 7 * day_ms) b then Booking.set_status "Cancelled" b else b.

(** ** Handlers that report a store error by its message *)

(** The message an exception carries. *)
Definition exn_message (e : Exn) : string :=
  match e with Error m | TypeError m | SyntaxError m => m end.

(** The handlers whose [throw] interpolates [error.message]. *)
Definition wrapping_handlers : list string :=
  [ "addLaundromat"; "addMachine"; "addUser"; "addDriver";
    "getOfflineMachines"; "getPendingBookings"; "getRevenueAnalytics" ].

(** ** Reading a summary back *)

(** [s.split(', ')], with [cur] the piece read so far. *)
Fixpoint split_go (cur s : string) : list string :=
  match s with
  | EmptyString => [cur]
  | String a rest =>
      match rest with
      | String b rest' =>
          if Ascii.eqb a ","%char && Ascii.eqb b " "%char then cur :: split_go EmptyString rest'
          else split_go (cur +:+ String a EmptyString) rest
      | EmptyString => [cur +:+ String a EmptyString]
      end
  end.

Definition split_comma_space (s : string) : list string := split_go EmptyString s.

(** No comma anywhere in [s]. *)
Fixpoint comma_free (s : string) : bool :=
  match s with
  | EmptyString => true
  | String a rest => negb (Ascii.eqb a ","%char) && comma_free rest
  end.

(** The follow-up request of a turn in which [fc] was called and returned
    the string [result], as [POST] builds it. *)
Definition follow_up_request (JSON_stringify : JsValue → option string)
    (apiKey : string) (req : RequestBody)
    (fc : Chat.function_call_t) (result : string) : Chat.request :=
  Chat.mkRequest ("Bearer " +:+ apiKey) "gpt-4-0613"
    (build_messages req
     ++ [ Chat.mkMessage "assistant" None None (Some fc);
          Chat.mkMessage "function" (JSON_stringify (VString result))
            (Some (Chat.name fc)) None ])
    None (2 # 10) 512.

(** ** The widget's controls and what it sends *)

(** [disabled={loading}] on the input field. *)
Definition input_disabled (st : AgentChatWidget.State) : bool :=
  AgentChatWidget.loading st.

(** [disabled={loading || !input.trim()}] on the Send button. *)
Definition send_disabled (st : AgentChatWidget.State) : bool :=
  AgentChatWidget.loading st
  || String.eqb (AgentChatWidget.trim (AgentChatWidget.input st)) EmptyString.

(** The body [JSON.stringify({ query, history })] as [req.json()] reads it on
    the server. *)
Definition request_body (rq : AgentChatWidget.request) : RequestBody :=
  mkRequestBody (AgentChatWidget.query rq) (Some (AgentChatWidget.history rq)).

(** ** Status words *)

Definition is_digit (a : ascii) : bool :=
  Nat.leb 48 (nat_of_ascii a) && Nat.leb (nat_of_ascii a) 57.

Fixpoint all_digits (s : string) : bool :=
  match s with
  | EmptyString => true
  | String a rest => is_digit a && all_digits rest
  end.

(** A status that the accumulator object of getMachineAnalytics keeps as an
    ordinary own property, in insertion order: not a run of digits (the keys
    an object lists first, as array indices, are among those) and not the
    name of a member of [Object.prototype]. *)
Definition ordinary_status (s : string) : Prop :=
  (s = EmptyString ∨ all_digits s = false) ∧ Object_prototype !! s = None.

(** How often [s] occurs in [l]. *)
Definition occurrences (s : string) (l : list string) : nat :=
  length (filter (λ x, x = s) l).

(** ** Sample worlds *)

Definition no_faults : nat → option PostgrestError := λ _, None.

(** The store answers its [k]-th request with an error, and no other. *)
Definition fault_at (k : nat) (msg : string) : nat → option PostgrestError :=
  λ i, if Nat.eqb i k then Some {| message := msg |} else None.

(** Ten days after the epoch, in milliseconds. *)
Definition sample_now : Z := 10 * day_ms.

Definition sample_W1 : Machine.t :=
  Machine.mk (Some "W1") (Some "L1") (Some "Washer") "In Use" None 0
    (sample_now - 25 * 60 * 60 * 1000).
Definition sample_W2 : Machine.t :=
  Machine.mk (Some "W2") (Some "L1") (Some "Dryer") "In Use" (Some 120%float) 0
    (sample_now - 1 * 60 * 60 * 1000).
Definition sample_W3 : Machine.t :=
  Machine.mk (Some "W3") (Some "L1") (Some "Dryer") "Offline" None 0 0.
Definition sample_B1 : Booking.t :=
  Booking.mk "B1" "Pending" (sample_now - 8 * day_ms).
Definition sample_B2 : Booking.t :=
  Booking.mk "B2" "Pending" (sample_now - 1 * day_ms).

Definition sample_db : Database :=
  mkDatabase [] [sample_W1; sample_W2; sample_W3] [] [] [sample_B1; sample_B2].

Definition sample_world (faults : nat → option PostgrestError) : World :=
  mkWorld sample_db (λ _, sample_now) 0 faults 0.

(** The first request of a turn, as [POST] builds it. *)
Definition first_request (apiKey : string) (req : RequestBody) : Chat.request :=
  Chat.mkRequest ("Bearer " +:+ apiKey) "gpt-4-0613" (build_messages req)
    (Some functions) (2 # 10) 512.

(** The reply of a turn in which no function is called. *)
Definition direct_reply (data : Chat.completion) : string :=
  or_string (message_content (first_choice data))
    "Sorry, I could not generate a response.".

(** The text the widget shows for a failed call. *)
Definition apology : string := "Sorry, there was an error contacting the agent.".

(** ** Sample runs of the dispatch loop *)

(** Stand-ins for the runtime's JSON functions, enough for the payloads and
    results of the samples: the empty object, and strings with nothing to
    escape. *)
Definition sample_JSON_parse (s : string) : option Args :=
  if String.eqb s "{}" then Some ∅ else None.

Definition sample_JSON_stringify (v : JsValue) : option string :=
  match v with
  | VUndefined => None
  | VBoolean b => Some (if b then "true" else "false")
  | VString s => Some (dquote +:+ s +:+ dquote)
  | VArgs _ | VFunctionMap => Some "{}"
  end.

(** A completion whose only choice has the given finish reason, content and
    function call. *)
Definition sample_completion (finish : string) (content : option string)
    (fc : option Chat.function_call_t) : Chat.completion :=
  Chat.mkCompletion
    (Some [Chat.mkChoice (Some finish) (Some (Chat.mkMessage "assistant" content None fc))]).

(** A completion service that answers the request that carries the schemas
    with [first] and the follow-up request with [second]. *)
Definition sample_env (first second : Chat.completion) : Env :=
  mkEnv (Some "sk-sample")
    (λ rq, Responded (mkFetchResponse true EmptyString
                        (Some match Chat.functions rq with Some _ => first | None => second end))).

(** A completion service that answers the request that carries the schemas
    with [first] (status 200) and the follow-up request with [second]. *)
Definition sample_env_with (first : Chat.completion) (second : Fetch Chat.completion) : Env :=
  mkEnv (Some "sk-sample")
    (λ rq, match Chat.functions rq with
           | Some _ => Responded (mkFetchResponse true EmptyString (Some first))
           | None => second
           end).

(** A completion that signals a call of [name] with [payload]. *)
Definition sample_call (name payload : string) : Chat.completion :=
  sample_completion "function_call" None (Some (Chat.mkCall name payload)).

Definition sample_request : RequestBody :=
  mkRequestBody "Run the maintenance" (Some [mkTurn "agent" "How can I help?"]).

(** * Properties *)

Ltac run_async :=
  unfold bind, ret, throw, Date_now, update_where, select_where, select_limit,
    insert_single, store_request; simpl.

(** ** The self-healing sweep *)

(** The world after the routine, whatever the store answered: each sweep is
    applied exactly when its own request went through. *)
Lemma triggerSelfHealing_world args w :
  let w' := (triggerSelfHealing args w).2 in
  machines (db w') =
    match store_replies w (requests w) with
    | None => heal_machine (clock w (reads w)) <$> machines (db w)
    | Some _ => machines (db w)
    end
  ∧ bookings (db w') =
    match store_replies w (S (requests w)) with
    | None => heal_booking (clock w (S (reads w))) <$> bookings (db w)
    | Some _ => bookings (db w)
    end
  ∧ participating_laundromats (db w') = participating_laundromats (db w)
  ∧ users (db w') = users (db w)
  ∧ drivers (db w') = drivers (db w).
Proof.
  unfold triggerSelfHealing. run_async.
  destruct (store_replies w (requests w)) as [e1|]; simpl;
    destruct (store_replies w (S (requests w))) as [e2|]; simpl; done.
Qed.

Lemma heal_machine_stuck now m :
  Machine.current_status m = "In Use" →
  (now - Machine.updated_at m > day_ms)%Z →
  heal_machine now m = Machine.set_current_status "Available" m.
Proof.
  intros Hs Hage. unfold heal_machine, is_stuck. rewrite Hs. simpl.
  destruct (Z.ltb_spec (Machine.updated_at m) (now - day_ms)); [done | lia].
Qed.

Lemma heal_machine_recent now m :
  (now - Machine.updated_at m ≤ day_ms)%Z → heal_machine now m = m.
Proof.
  intros Hage. unfold heal_machine, is_stuck.
  destruct (Z.ltb_spec (Machine.updated_at m) (now - day_ms)); [lia |].
  by rewrite andb_false_r.
Qed.

Lemma heal_booking_stale now b :
  Booking.status b = "Pending" →
  (now - Booking.created_at b > 7 * day_ms)%Z →
  heal_booking now b = Booking.set_status "Cancelled" b.
Proof.
  intros Hs Hage. unfold heal_booking, is_stale. rewrite Hs. simpl.
  destruct (Z.ltb_spec (Booking.created_at b) (now - 7 * day_ms)); [done | lia].
Qed.

Lemma heal_booking_recent now b :
  (now - Booking.created_at b ≤ 7 * day_ms)%Z → heal_booking now b = b.
Proof.
  intros Hage. unfold heal_booking, is_stale.
  destruct (Z.ltb_spec (Booking.created_at b) (now - 7 * day_ms)); [lia |].
  by rewrite andb_false_r.
Qed.

(** C1.  When the store carries out the machine sweep, every machine row that
    is "In Use" and was updated more than 24 hours before the clock reading
    of the sweep has its [current_status] set to "Available" (nothing else in
    the row changes), and a row updated within the last 24 hours is left as
    it was; likewise, when the store carries out the booking sweep, every
    "Pending" booking created more than 7 days before its clock reading
    becomes "Cancelled" and a booking created within the last 7 days is left
    as it was.  No row is added or removed. *)
Theorem triggerSelfHealing_resets_stale_rows (args : Args) (w : World) :
  let w' := (triggerSelfHealing args w).2 in
  let now := clock w (reads w) in
  let now' := clock w (S (reads w)) in
  (store_replies w (requests w) = None →
     length (machines (db w')) = length (machines (db w))
     ∧ ∀ (i : nat) (m : Machine.t), machines (db w) !! i = Some m →
         (Machine.current_status m = "In Use" →
          (now - Machine.updated_at m > 24 * 60 * 60 * 1000)%Z →
          machines (db w') !! i = Some (Machine.set_current_status "Available" m)
          ∧ Machine.current_status (Machine.set_current_status "Available" m) = "Available")
         ∧ ((now - Machine.updated_at m ≤ 24 * 60 * 60 * 1000)%Z →
            machines (db w') !! i = Some m))
  ∧ (store_replies w (S (requests w)) = None →
     length (bookings (db w')) = length (bookings (db w))
     ∧ ∀ (i : nat) (b : Booking.t), bookings (db w) !! i = Some b →
         (Booking.status b = "Pending" →
          (now' - Booking.created_at b > 7 * 24 * 60 * 60 * 1000)%Z →
          bookings (db w') !! i = Some (Booking.set_status "Cancelled" b)
          ∧ Booking.status (Booking.set_status "Cancelled" b) = "Cancelled")
         ∧ ((now' - Booking.created_at b ≤ 7 * 24 * 60 * 60 * 1000)%Z →
            bookings (db w') !! i = Some b)).
Proof.
  intros w' now now'.
  destruct (triggerSelfHealing_world args w) as (Hm & Hb & _).
  fold w' in Hm, Hb. split; intros Hok.
  - rewrite Hok in Hm. rewrite Hm, length_fmap. split; [done |].
    intros i m Hi. rewrite list_lookup_fmap, Hi. simpl. split.
    + intros Hs Hage. by rewrite heal_machine_stuck.
    + intros Hage. by rewrite heal_machine_recent.
  - rewrite Hok in Hb. rewrite Hb, length_fmap. split; [done |].
    intros i b Hi. rewrite list_lookup_fmap, Hi. simpl. split.
    + intros Hs Hage. by rewrite heal_booking_stale.
    + intros Hage. by rewrite heal_booking_recent.
Qed.

Lemma triggerSelfHealing_resets_stale_rows_witness :
  let w' := (triggerSelfHealing ∅ (sample_world no_faults)).2 in
  (machines (db w') !! 0 = Some (Machine.set_current_status "Available" sample_W1)
   ∧ machines (db w') !! 1 = Some sample_W2)
  ∧ (bookings (db w') !! 0 = Some (Booking.set_status "Cancelled" sample_B1)
     ∧ bookings (db w') !! 1 = Some sample_B2).
Proof.
  destruct (triggerSelfHealing_resets_stale_rows ∅ (sample_world no_faults))
    as [Hm Hb].
  destruct (Hm eq_refl) as [_ Hm']. destruct (Hb eq_refl) as [_ Hb'].
  split; split.
  - apply (Hm' 0 sample_W1 eq_refl); [reflexivity | vm_compute; reflexivity].
  - apply (Hm' 1 sample_W2 eq_refl). vm_compute. discriminate.
  - apply (Hb' 0 sample_B1 eq_refl); [reflexivity | vm_compute; reflexivity].
  - apply (Hb' 1 sample_B2 eq_refl). vm_compute. discriminate.
Defined.

Lemma or_nat_0 n : or_nat n 0 = n.
Proof. by destruct n. Qed.

(** The outcome of the routine, whatever the store answered. *)
Lemma triggerSelfHealing_outcome args w :
  (triggerSelfHealing args w).1 =
    match store_replies w (requests w), store_replies w (S (requests w)) with
    | None, None =>
        Returns ("Self-healing complete. Reset "
          +:+ pretty (length (filter (λ m, is_stuck (clock w (reads w) - day_ms) m = true)
                                (machines (db w))))
          +:+ " stuck machines and "
          +:+ pretty (length (filter (λ b, is_stale (clock w (S (reads w)) - 7 * day_ms) b = true)
                                (bookings (db w))))
          +:+ " stale bookings.")
    | _, _ => Throws (Error "Failed to complete self-healing routine")
    end.
Proof.
  unfold triggerSelfHealing. run_async.
  destruct (store_replies w (requests w)) as [e1|]; simpl;
    destruct (store_replies w (S (requests w))) as [e2|]; simpl; try done.
  unfold affected. by rewrite !or_nat_0, !length_fmap.
Qed.

(** C2.  If the store rejects the machine sweep or the booking sweep, the
    handler throws the fixed error "Failed to complete self-healing routine"
    (so no counts are reported, and the message is the same whichever sweep
    failed and whatever the other one did), while a sweep that the store did
    carry out stays applied: its rows are updated in the world left behind. *)
Theorem triggerSelfHealing_not_transactional (args : Args) (w : World) :
  let r := triggerSelfHealing args w in
  is_Some (store_replies w (requests w))
  ∨ is_Some (store_replies w (S (requests w))) →
  r.1 = Throws (Error "Failed to complete self-healing routine")
  ∧ (store_replies w (requests w) = None →
     machines (db r.2) = heal_machine (clock w (reads w)) <$> machines (db w))
  ∧ (store_replies w (S (requests w)) = None →
     bookings (db r.2) = heal_booking (clock w (S (reads w))) <$> bookings (db w)).
Proof.
  intros r Hfail.
  destruct (triggerSelfHealing_world args w) as (Hm & Hb & _).
  pose proof (triggerSelfHealing_outcome args w) as Ho.
  fold r in Hm, Hb, Ho. split; [| split].
  - rewrite Ho. destruct Hfail as [[e He]|[e He]]; rewrite He; [done |].
    by destruct (store_replies w (requests w)).
  - intros Hok. by rewrite Hm, Hok.
  - intros Hok. by rewrite Hb, Hok.
Qed.

Lemma triggerSelfHealing_not_transactional_witness :
  let r := triggerSelfHealing ∅ (sample_world (fault_at 1 "connection reset")) in
  r.1 = Throws (Error "Failed to complete self-healing routine")
  ∧ Machine.current_status <$> machines (db r.2) = ["Available"; "In Use"; "Offline"]
  ∧ Booking.status <$> bookings (db r.2) = ["Pending"; "Pending"].
Proof.
  destruct (triggerSelfHealing_not_transactional ∅
              (sample_world (fault_at 1 "connection reset")))
    as (Ho & Hm & _).
  { right. vm_compute. eauto. }
  specialize (Hm eq_refl). intros r.
  split; [exact Ho |]. subst r. rewrite Hm. vm_compute. split; reflexivity.
Defined.

(** ** Store errors *)

Lemma prefix_app s t : String.prefix s (s +:+ t) = true.
Proof.
  induction s as [|a s IH].
  - change (EmptyString +:+ t) with t. by destruct t.
  - change (String a s +:+ t) with (String a (s +:+ t)). simpl.
    by destruct (Ascii.ascii_dec a a).
Qed.

Lemma occurs_app pre s post : occurs s (pre +:+ s +:+ post) = true.
Proof.
  induction pre as [|a pre IH].
  - pose proof (prefix_app s post) as Hp.
    change (EmptyString +:+ s +:+ post) with (s +:+ post).
    destruct (s +:+ post); cbn [occurs]; by rewrite Hp.
  - change (String a pre +:+ s +:+ post) with (String a (pre +:+ s +:+ post)).
    cbn [occurs]. rewrite IH. apply orb_true_r.
Qed.

Lemma prefix_split s t : String.prefix s t = true → ∃ post, t = s +:+ post.
Proof.
  revert t. induction s as [|a s IH]; intros t.
  - by exists t.
  - destruct t as [|b t]; simpl; [done |].
    destruct (Ascii.ascii_dec a b) as [->|]; [| done].
    intros [post ->]%IH. by exists post.
Qed.

Lemma occurs_spec needle hay :
  occurs needle hay = true ↔ ∃ pre post, hay = pre +:+ needle +:+ post.
Proof.
  split.
  - induction hay as [|a hay IH]; cbn [occurs].
    + rewrite orb_false_r. intros [post Hpost]%prefix_split.
      by exists EmptyString, post.
    + intros [[post Hpost]%prefix_split | [pre [post ->]]%IH]%orb_true_iff.
      * by exists EmptyString, post.
      * by exists (String a pre), post.
  - intros (pre & post & ->). apply occurs_app.
Qed.

Lemma append_empty_r s : s +:+ EmptyString = s.
Proof.
  induction s as [|a s IH]; [done |].
  change (String a s +:+ EmptyString) with (String a (s +:+ EmptyString)).
  by rewrite IH.
Qed.

Lemma occurs_suffix pre s : occurs s (pre +:+ s) = true.
Proof.
  apply occurs_spec. exists pre, EmptyString. by rewrite append_empty_r.
Qed.

(** The registry holds each handler under its own name. *)
Lemma functionMap_lookup :
  functionMap !! "addLaundromat" = Some addLaundromat
  ∧ functionMap !! "addMachine" = Some addMachine
  ∧ functionMap !! "addUser" = Some addUser
  ∧ functionMap !! "addDriver" = Some addDriver
  ∧ functionMap !! "getOfflineMachines" = Some getOfflineMachines
  ∧ functionMap !! "getPendingBookings" = Some getPendingBookings
  ∧ functionMap !! "getSystemHealth" = Some getSystemHealth
  ∧ functionMap !! "triggerSelfHealing" = Some triggerSelfHealing
  ∧ functionMap !! "getMachineAnalytics" = Some getMachineAnalytics
  ∧ functionMap !! "getRevenueAnalytics" = Some getRevenueAnalytics.
Proof. repeat split; reflexivity. Qed.

Lemma addLaundromat_store_error args w e :
  store_replies w (requests w) = Some e →
  (addLaundromat args w).1 = Throws (Error ("Failed to add laundromat: " +:+ message e))
  ∧ db (addLaundromat args w).2 = db w.
Proof. intros He. unfold addLaundromat. run_async. by rewrite He. Qed.

Lemma addMachine_store_error args w e :
  store_replies w (requests w) = Some e →
  (addMachine args w).1 = Throws (Error ("Failed to add machine: " +:+ message e))
  ∧ db (addMachine args w).2 = db w.
Proof. intros He. unfold addMachine. run_async. by rewrite He. Qed.

Lemma addUser_store_error args w e :
  store_replies w (requests w) = Some e →
  (addUser args w).1 = Throws (Error ("Failed to add user: " +:+ message e))
  ∧ db (addUser args w).2 = db w.
Proof. intros He. unfold addUser. run_async. by rewrite He. Qed.

Lemma addDriver_store_error args w e :
  store_replies w (requests w) = Some e →
  (addDriver args w).1 = Throws (Error ("Failed to add driver: " +:+ message e))
  ∧ db (addDriver args w).2 = db w.
Proof. intros He. unfold addDriver. run_async. by rewrite He. Qed.

Lemma getOfflineMachines_store_error args w e :
  store_replies w (requests w) = Some e →
  (getOfflineMachines args w).1
    = Throws (Error ("Failed to get offline machines: " +:+ message e))
  ∧ db (getOfflineMachines args w).2 = db w.
Proof. intros He. unfold getOfflineMachines. run_async. by rewrite He. Qed.

Lemma getPendingBookings_store_error args w e :
  store_replies w (requests w) = Some e →
  (getPendingBookings args w).1
    = Throws (Error ("Failed to get pending bookings: " +:+ message e))
  ∧ db (getPendingBookings args w).2 = db w.
Proof. intros He. unfold getPendingBookings. run_async. by rewrite He. Qed.

Lemma getRevenueAnalytics_store_error args w e :
  store_replies w (requests w) = Some e →
  (getRevenueAnalytics args w).1
    = Throws (Error ("Failed to get revenue analytics: " +:+ message e))
  ∧ db (getRevenueAnalytics args w).2 = db w.
Proof. intros He. unfold getRevenueAnalytics. run_async. by rewrite He. Qed.

(** The health check never throws: it answers by the four probes. *)
Lemma getSystemHealth_outcome args w :
  (getSystemHealth args w).1 =
    Returns
      match store_replies w (requests w), store_replies w (S (requests w)),
            store_replies w (S (S (requests w))),
            store_replies w (S (S (S (requests w)))) with
      | None, None, None, None => "System is healthy. All services operational."
      | _, _, _, _ => "System issues detected. Some services may be degraded."
      end
  ∧ db (getSystemHealth args w).2 = db w.
Proof.
  unfold getSystemHealth. run_async.
  destruct (store_replies w (requests w)); simpl;
    destruct (store_replies w (S (requests w))); simpl;
    destruct (store_replies w (S (S (requests w)))); simpl;
    destruct (store_replies w (S (S (S (requests w))))); simpl; done.
Qed.

(** The analytics handler reads [data] in its [.then] callback before any
    look at [error]: a store error surfaces as the runtime's [TypeError]. *)
Lemma getMachineAnalytics_store_error args w e :
  store_replies w (requests w) = Some e →
  (getMachineAnalytics args w).1
    = Throws (TypeError "Cannot read properties of null (reading 'reduce')").
Proof. intros He. unfold getMachineAnalytics. run_async. by rewrite He. Qed.

(** C3, as the code has it.  Each of addLaundromat, addMachine, addUser,
    addDriver, getOfflineMachines, getPendingBookings and getRevenueAnalytics,
    when the store answers its request with an error, throws an [Error] whose
    message contains the store's own message (it ends with it) and leaves the
    tables as they were.  triggerSelfHealing, when the store rejects either of
    its sweeps, throws the fixed message of the routine instead, and
    getSystemHealth does not throw at all: a probe that fails makes it return
    the summary of a degraded system. *)
Theorem store_error_reporting :
  (∀ (name : string) (h : Handler) (args : Args) (w : World) (e : PostgrestError),
     name ∈ wrapping_handlers →
     functionMap !! name = Some h →
     store_replies w (requests w) = Some e →
     ∃ msg, (h args w).1 = Throws (Error msg)
            ∧ occurs (message e) msg = true
            ∧ (∃ pre, msg = pre +:+ message e)
            ∧ db (h args w).2 = db w)
  ∧ (∀ (args : Args) (w : World),
       is_Some (store_replies w (requests w))
       ∨ is_Some (store_replies w (S (requests w))) →
       (triggerSelfHealing args w).1
         = Throws (Error "Failed to complete self-healing routine"))
  ∧ (∀ (args : Args) (w : World) (k : nat),
       k < 4 → is_Some (store_replies w (k + requests w)) →
       (getSystemHealth args w).1
         = Returns "System issues detected. Some services may be degraded.").
Proof.
  destruct functionMap_lookup as (L1 & L2 & L3 & L4 & L5 & L6 & _ & _ & _ & L10).
  split; [| split].
  - intros name h args w e Hin Hh He. unfold wrapping_handlers in Hin.
    repeat (apply elem_of_cons in Hin as [-> | Hin]);
      [ rewrite L1 in Hh | rewrite L2 in Hh | rewrite L3 in Hh | rewrite L4 in Hh
      | rewrite L5 in Hh | rewrite L6 in Hh | rewrite L10 in Hh
      | by apply elem_of_nil in Hin ];
      injection Hh as <-;
      [ destruct (addLaundromat_store_error args w e He) as [Ho Hd]
      | destruct (addMachine_store_error args w e He) as [Ho Hd]
      | destruct (addUser_store_error args w e He) as [Ho Hd]
      | destruct (addDriver_store_error args w e He) as [Ho Hd]
      | destruct (getOfflineMachines_store_error args w e He) as [Ho Hd]
      | destruct (getPendingBookings_store_error args w e He) as [Ho Hd]
      | destruct (getRevenueAnalytics_store_error args w e He) as [Ho Hd] ];
      (eexists; split; [exact Ho |]; split; [apply occurs_suffix |];
       split; [by eexists | exact Hd]).
  - intros args w Hfail. rewrite triggerSelfHealing_outcome.
    destruct Hfail as [[e He]|[e He]]; rewrite He; [done |].
    by destruct (store_replies w (requests w)).
  - intros args w k Hk [e He].
    destruct (getSystemHealth_outcome args w) as [-> _]. f_equal.
    destruct k as [|[|[|[|k]]]]; [| | | | lia]; simpl in He; rewrite He;
      repeat case_match; done.
Qed.

Lemma store_error_reporting_witness :
  let w := sample_world (fault_at 0 "duplicate key value") in
  (∃ msg, (addUser ∅ w).1 = Throws (Error msg)
          ∧ occurs "duplicate key value" msg = true
          ∧ (∃ pre, msg = pre +:+ "duplicate key value")
          ∧ db (addUser ∅ w).2 = db w)
  ∧ (triggerSelfHealing ∅ w).1 = Throws (Error "Failed to complete self-healing routine")
  ∧ (getSystemHealth ∅ w).1
      = Returns "System issues detected. Some services may be degraded.".
Proof.
  destruct store_error_reporting as (Hwrap & Hheal & Hhealth).
  split; [| split].
  - apply (Hwrap "addUser" addUser ∅ _ {| message := "duplicate key value" |}).
    + unfold wrapping_handlers. do 2 apply list_elem_of_further. apply list_elem_of_here.
    + reflexivity.
    + reflexivity.
  - apply Hheal. left. vm_compute. eauto.
  - apply (Hhealth ∅ _ 0); [lia |]. vm_compute. eauto.
Defined.

(** C3 as stated fails: with the store rejecting the machine sweep with
    "connection reset", triggerSelfHealing (a handler of the registry) throws
    an error whose message does not contain the store's message, and
    getSystemHealth (another one) does not throw at all. *)
Lemma store_error_message_dropped :
  let w := sample_world (fault_at 0 "connection reset") in
  store_replies w (requests w) = Some {| message := "connection reset" |}
  ∧ functionMap !! "triggerSelfHealing" = Some triggerSelfHealing
  ∧ (triggerSelfHealing ∅ w).1 = Throws (Error "Failed to complete self-healing routine")
  ∧ occurs "connection reset" "Failed to complete self-healing routine" = false
  ∧ functionMap !! "getSystemHealth" = Some getSystemHealth
  ∧ (getSystemHealth ∅ w).1
      = Returns "System issues detected. Some services may be degraded.".
Proof. repeat split; reflexivity. Qed.

(** ** The dispatch loop *)

Section DispatchProperties.
Variable JSON_parse : string → option Args.
Variable JSON_stringify : JsValue → option string.

(** The loop up to the point where the first response has been read. *)
Lemma POST_after_first_response env req w apiKey response data :
  OPENAI_API_KEY env = Some apiKey →
  apiKey ≠ EmptyString →
  chat_completions env (first_request apiKey req) = Responded response →
  ok response = true →
  json response = Some data →
  POST JSON_parse JSON_stringify env req w =
    match function_call_signal (first_choice data) with
    | Some fc =>
        match functionMap_get (Chat.name fc) with
        | Some callee =>
            call_and_follow_up JSON_stringify env apiKey (build_messages req) fc callee
              (default ∅ (JSON_parse (Chat.arguments fc))) w
        | None => (Returns (mkHttpResponse 200 (reply (direct_reply data))), w)
        end
    | None => (Returns (mkHttpResponse 200 (reply (direct_reply data))), w)
    end.
Proof.
  intros Hkey Hne Hfetch Hok Hjson. unfold POST. rewrite Hkey.
  apply String.eqb_neq in Hne. rewrite Hne.
  fold (first_request apiKey req). rewrite Hfetch.
  unfold bind, fetch, ret, response_json. simpl. rewrite Hok, Hjson. simpl.
  destruct (function_call_signal (first_choice data)) as [fc|]; [| done].
  by destruct (functionMap_get (Chat.name fc)).
Qed.

Lemma direct_reply_nonempty data : direct_reply data ≠ EmptyString.
Proof.
  unfold direct_reply.
  destruct (message_content (first_choice data)) as [c|]; simpl; [| done].
  by destruct (String.eqb_spec c EmptyString).
Qed.

(** C4.  When the completion service answers the first request with a
    response that carries no function-call signal, the loop replies (status
    200) with the message content of the first choice exactly as it is, and
    with "Sorry, I could not generate a response." when that content is
    absent or empty; no handler runs and the world is left as it was. *)
Theorem POST_without_function_call env req w apiKey response data :
  OPENAI_API_KEY env = Some apiKey →
  apiKey ≠ EmptyString →
  chat_completions env (first_request apiKey req) = Responded response →
  ok response = true →
  json response = Some data →
  function_call_signal (first_choice data) = None →
  ∃ text,
    POST JSON_parse JSON_stringify env req w
      = (Returns (mkHttpResponse 200 (reply text)), w)
    ∧ (∀ c, message_content (first_choice data) = Some c → c ≠ EmptyString → text = c)
    ∧ (message_content (first_choice data) = None
       ∨ message_content (first_choice data) = Some EmptyString →
       text = "Sorry, I could not generate a response.").
Proof.
  intros Hkey Hne Hfetch Hok Hjson Hsig.
  rewrite (POST_after_first_response env req w apiKey response data)
    by assumption.
  rewrite Hsig. eexists. split; [reflexivity |]. unfold direct_reply. split.
  - intros c -> Hc. simpl. apply String.eqb_neq in Hc. by rewrite Hc.
  - by intros [-> | ->].
Qed.

(** C6.  When the first response signals a call of a registered function
    with a payload that [JSON.parse] rejects, the loop runs the handler of
    that name on the empty argument bag and goes on from its outcome as for
    any call: the handler's own exception propagates, and otherwise the
    handler's result (nothing about the payload) is sent back to the model
    in the follow-up request. *)
Theorem POST_unparseable_arguments env req w apiKey response data fc (h : Handler) :
  OPENAI_API_KEY env = Some apiKey →
  apiKey ≠ EmptyString →
  chat_completions env (first_request apiKey req) = Responded response →
  ok response = true →
  json response = Some data →
  function_call_signal (first_choice data) = Some fc →
  functionMap !! Chat.name fc = Some h →
  JSON_parse (Chat.arguments fc) = None →
  POST JSON_parse JSON_stringify env req w =
    match h ∅ w with
    | (Returns result, w') =>
        follow_up JSON_stringify env apiKey (build_messages req) fc (VString result) w'
    | (Throws e, w') => (Throws e, w')
    end.
Proof.
  intros Hkey Hne Hfetch Hok Hjson Hsig Hh Hparse.
  rewrite (POST_after_first_response env req w apiKey response data)
    by assumption.
  rewrite Hsig. unfold functionMap_get. rewrite Hh, Hparse.
  unfold call_and_follow_up, call, bind, ret. simpl.
  by destruct (h ∅ w) as [[result|e] w'].
Qed.

(** A name under which the object literal inherits a member is called like
    a handler: the member runs on the parsed arguments, and its result, when
    it has one, goes to the model. *)
Lemma POST_inherited_name env req w apiKey response data fc m :
  OPENAI_API_KEY env = Some apiKey →
  apiKey ≠ EmptyString →
  chat_completions env (first_request apiKey req) = Responded response →
  ok response = true →
  json response = Some data →
  function_call_signal (first_choice data) = Some fc →
  functionMap !! Chat.name fc = None →
  Object_prototype !! Chat.name fc = Some m →
  POST JSON_parse JSON_stringify env req w =
    match call_inherited m (default ∅ (JSON_parse (Chat.arguments fc))) with
    | Returns result =>
        follow_up JSON_stringify env apiKey (build_messages req) fc result w
    | Throws e => (Throws e, w)
    end.
Proof.
  intros Hkey Hne Hfetch Hok Hjson Hsig Hown Hproto.
  rewrite (POST_after_first_response env req w apiKey response data)
    by assumption.
  rewrite Hsig. unfold functionMap_get. rewrite Hown, Hproto. simpl.
  unfold call_and_follow_up, call, bind.
  by destruct (call_inherited m _).
Qed.

(** A name that is neither a handler nor a member of [Object.prototype]
    falls through to the direct reply, which is never empty. *)
Lemma POST_unknown_name env req w apiKey response data fc :
  OPENAI_API_KEY env = Some apiKey →
  apiKey ≠ EmptyString →
  chat_completions env (first_request apiKey req) = Responded response →
  ok response = true →
  json response = Some data →
  function_call_signal (first_choice data) = Some fc →
  functionMap !! Chat.name fc = None →
  Object_prototype !! Chat.name fc = None →
  POST JSON_parse JSON_stringify env req w
    = (Returns (mkHttpResponse 200 (reply (direct_reply data))), w)
    ∧ direct_reply data ≠ EmptyString.
Proof.
  intros Hkey Hne Hfetch Hok Hjson Hsig Hown Hproto.
  rewrite (POST_after_first_response env req w apiKey response data)
    by assumption.
  rewrite Hsig. unfold functionMap_get. rewrite Hown, Hproto.
  split; [done | apply direct_reply_nonempty].
Qed.
End DispatchProperties.

Lemma POST_without_function_call_witness :
  let env := sample_env (sample_completion "stop" (Some "All machines are online.") None)
                        (sample_completion "stop" None None) in
  let w := sample_world no_faults in
  POST sample_JSON_parse sample_JSON_stringify env sample_request w
    = (Returns (mkHttpResponse 200 (reply "All machines are online.")), w).
Proof.
  intros env w.
  destruct (POST_without_function_call sample_JSON_parse sample_JSON_stringify
              env sample_request w "sk-sample"
              (mkFetchResponse true EmptyString
                 (Some (sample_completion "stop" (Some "All machines are online.") None)))
              (sample_completion "stop" (Some "All machines are online.") None))
    as (text & HPOST & Hcontent & _);
    [reflexivity | discriminate | reflexivity | reflexivity | reflexivity | reflexivity |].
  rewrite HPOST.
  by rewrite (Hcontent "All machines are online." eq_refl ltac:(discriminate)).
Defined.

Lemma POST_unparseable_arguments_witness :
  let env := sample_env
               (sample_completion "function_call" None
                  (Some (Chat.mkCall "addMachine" "{machine_id: W9")))
               (sample_completion "stop" (Some "The machine was added.") None) in
  let r := POST sample_JSON_parse sample_JSON_stringify env sample_request
             (sample_world no_faults) in
  r.1 = Returns (mkHttpResponse 200 (reply "The machine was added."))
  ∧ machines (db r.2)
    = [ sample_W1; sample_W2; sample_W3;
        Machine.mk None None None "Available" None sample_now sample_now ].
Proof.
  intros env r. subst r.
  rewrite (POST_unparseable_arguments sample_JSON_parse sample_JSON_stringify
             env sample_request (sample_world no_faults) "sk-sample"
             (mkFetchResponse true EmptyString
                (Some (sample_completion "function_call" None
                         (Some (Chat.mkCall "addMachine" "{machine_id: W9")))))
             (sample_completion "function_call" None
                (Some (Chat.mkCall "addMachine" "{machine_id: W9")))
             (Chat.mkCall "addMachine" "{machine_id: W9") addMachine);
    [| reflexivity | discriminate | reflexivity | reflexivity | reflexivity
     | reflexivity | reflexivity | reflexivity ].
  split; reflexivity.
Defined.

(** C5 at names the object literal inherits.  Neither "__proto__" nor
    "toString" is a key of the registry or a declared function, yet
    [functionMap[name]] is truthy for both: with "__proto__" the loop calls an
    object that is no function and the request fails with a [TypeError]; with
    "toString" it calls the inherited method, sends its result to the model
    and replies with the follow-up's text (here its fallback) instead of the
    content of the first response. *)
Lemma POST_inherited_name_is_called :
  let first name :=
    sample_completion "function_call" (Some "One moment.") (Some (Chat.mkCall name "{}")) in
  let second := sample_completion "stop" None None in
  let w := sample_world no_faults in
  (functionMap !! "__proto__" = None ∧ "__proto__" ∉ Fn.name <$> functions)
  ∧ POST sample_JSON_parse sample_JSON_stringify
      (sample_env (first "__proto__") second) sample_request w
    = (Throws (TypeError "functionMap[name] is not a function"), w)
  ∧ (functionMap !! "toString" = None ∧ "toString" ∉ Fn.name <$> functions)
  ∧ POST sample_JSON_parse sample_JSON_stringify
      (sample_env (first "toString") second) sample_request w
    = (Returns (mkHttpResponse 200 (reply "Action completed.")), w).
Proof.
  repeat split; try reflexivity.
  - intros Hin. by repeat (apply elem_of_cons in Hin as [? | Hin]; [done |]);
      apply elem_of_nil in Hin.
  - intros Hin. by repeat (apply elem_of_cons in Hin as [? | Hin]; [done |]);
      apply elem_of_nil in Hin.
Qed.

(** ** Summaries of the read handlers *)

(** C7.  Whatever rows the store returns, the summary of getOfflineMachines
    and of getPendingBookings is "Found <n> ...: <ids>" where <ids> is the
    list of the ids of the rows returned, joined by ", ", and <n> is the
    decimal numeral of the length of that very list. *)
Theorem found_count_is_length_of_ids (args : Args) (w : World) :
  store_replies w (requests w) = None →
  (∃ ids : list (option string),
     (getOfflineMachines args w).1
       = Returns ("Found " +:+ pretty (length ids) +:+ " offline machines: "
                  +:+ join ", " ids)
     ∧ ids = Machine.machine_id
               <$> filter (λ m, Machine.current_status m = "Offline") (machines (db w)))
  ∧ (∃ ids : list (option string),
       (getPendingBookings args w).1
         = Returns ("Found " +:+ pretty (length ids) +:+ " pending bookings: "
                    +:+ join ", " ids)
       ∧ ids = (λ b, Some (Booking.booking_id b))
                 <$> filter (λ b, Booking.status b = "Pending") (bookings (db w))).
Proof.
  intros Hok. split; eexists; (split; [| reflexivity]).
  - unfold getOfflineMachines. run_async. rewrite Hok. simpl.
    unfold found. rewrite !length_fmap.
    assert (filter (λ r, is_offline r = true) (machines (db w))
            = filter (λ m, Machine.current_status m = "Offline") (machines (db w)))
      as -> ; [| done].
    apply list_filter_iff. intros m. unfold is_offline. by rewrite String.eqb_eq.
  - unfold getPendingBookings. run_async. rewrite Hok. simpl.
    unfold found. rewrite !length_fmap.
    assert (filter (λ r, is_pending r = true) (bookings (db w))
            = filter (λ b, Booking.status b = "Pending") (bookings (db w)))
      as -> ; [| done].
    apply list_filter_iff. intros b. unfold is_pending. by rewrite String.eqb_eq.
Qed.

Lemma found_count_is_length_of_ids_witness :
  let w := sample_world no_faults in
  (getOfflineMachines ∅ w).1 = Returns "Found 1 offline machines: W3"
  ∧ (getPendingBookings ∅ w).1 = Returns "Found 2 pending bookings: B1, B2".
Proof.
  intros w.
  destruct (found_count_is_length_of_ids ∅ w eq_refl)
    as [(ids & Hm & ->) (ids' & Hb & ->)].
  split; [rewrite Hm | rewrite Hb]; reflexivity.
Defined.

(** ** Revenue analytics *)

Lemma or_nat_1 n : Z.of_nat (or_nat n 1) = Z.max 1 (Z.of_nat n).
Proof. destruct n; unfold or_nat; simpl; lia. Qed.

(** C8.  When the store answers, getRevenueAnalytics returns the total of the
    non-null revenues and that total divided by max(1, number of eligible
    machines), each with two decimals; so with no eligible machine it returns
    (and does not throw) total 0.00 and average 0.00, where a division by the
    number of machines itself would have given NaN. *)
Theorem getRevenueAnalytics_mean (args : Args) (w : World) :
  store_replies w (requests w) = None →
  let eligible :=
    filter (λ m, is_Some (Machine.average_monthly_revenue m)) (machines (db w)) in
  let total :=
    foldl (λ sum m, sum + or_zero (Machine.average_monthly_revenue m))%float
      0%float eligible in
  (getRevenueAnalytics args w).1
    = Returns ("Total Monthly Revenue: $" +:+ toFixed 2 total
               +:+ ", Average per Machine: $"
               +:+ toFixed 2 (total / Z2float (Z.max 1 (Z.of_nat (length eligible)))))
  ∧ (eligible = [] →
     (getRevenueAnalytics args w).1
       = Returns "Total Monthly Revenue: $0.00, Average per Machine: $0.00").
Proof.
  intros Hok eligible total.
  assert ((getRevenueAnalytics args w).1
    = Returns ("Total Monthly Revenue: $" +:+ toFixed 2 total
               +:+ ", Average per Machine: $"
               +:+ toFixed 2 (total / Z2float (Z.max 1 (Z.of_nat (length eligible))))))
    as Hret.
  { unfold getRevenueAnalytics. run_async. rewrite Hok. simpl.
    rewrite or_nat_1.
    assert (filter (λ r, has_revenue r = true) (machines (db w)) = eligible) as ->; [| done].
    apply list_filter_iff. intros m. unfold has_revenue.
    by rewrite bool_decide_eq_true. }
  split; [exact Hret |].
  intros Hnone. rewrite Hret. subst total. rewrite Hnone. reflexivity.
Qed.

Lemma getRevenueAnalytics_mean_witness :
  (getRevenueAnalytics ∅ (sample_world no_faults)).1
    = Returns "Total Monthly Revenue: $120.00, Average per Machine: $120.00"
  ∧ (getRevenueAnalytics ∅ (mkWorld (mkDatabase [] [sample_W1] [] [] []) (λ _, 0%Z) 0 no_faults 0)).1
    = Returns "Total Monthly Revenue: $0.00, Average per Machine: $0.00".
Proof.
  split.
  - destruct (getRevenueAnalytics_mean ∅ (sample_world no_faults) eq_refl) as [-> _].
    reflexivity.
  - by destruct (getRevenueAnalytics_mean ∅
        (mkWorld (mkDatabase [] [sample_W1] [] [] []) (λ _, 0%Z) 0 no_faults 0) eq_refl)
      as [_ ->].
Defined.

(** ** Adding a machine *)

(** C10.  When the store accepts the insert, addMachine appends exactly one
    machine row; its [current_status] is "Available" when the argument is
    absent or the empty string, it is the argument itself when that is a
    non-empty string, and it is never the empty string. *)
Theorem addMachine_default_status (args : Args) (w : World) :
  store_replies w (requests w) = None →
  ∃ row : Machine.t,
    machines (db (addMachine args w).2) = machines (db w) ++ [row]
    ∧ Machine.current_status row ≠ EmptyString
    ∧ (args !! "current_status" = None ∨ args !! "current_status" = Some EmptyString →
       Machine.current_status row = "Available")
    ∧ (∀ s, args !! "current_status" = Some s → s ≠ EmptyString →
       Machine.current_status row = s).
Proof.
  intros Hok. unfold addMachine. run_async. rewrite Hok. simpl.
  eexists. split; [reflexivity |]. simpl. split; [| split].
  - destruct (args !! "current_status") as [s|]; simpl; [| done].
    by destruct (String.eqb_spec s EmptyString).
  - by intros [-> | ->].
  - intros s -> Hs. simpl. apply String.eqb_neq in Hs. by rewrite Hs.
Qed.

Lemma addMachine_default_status_witness :
  let w := sample_world no_faults in
  (∃ row, machines (db (addMachine {[ "machine_id" := "W9" ]} w).2)
            = machines (db w) ++ [row]
          ∧ Machine.current_status row = "Available")
  ∧ (∃ row, machines (db (addMachine {[ "current_status" := "In Use" ]} w).2)
              = machines (db w) ++ [row]
            ∧ Machine.current_status row = "In Use").
Proof.
  intros w. split.
  - destruct (addMachine_default_status {[ "machine_id" := "W9" ]} w eq_refl)
      as (row & Hrows & _ & Hdefault & _).
    exists row. split; [exact Hrows |]. apply Hdefault. by left.
  - destruct (addMachine_default_status {[ "current_status" := "In Use" ]} w eq_refl)
      as (row & Hrows & _ & _ & Hgiven).
    exists row. split; [exact Hrows |]. by apply Hgiven.
Defined.

(** ** The chat widget *)

Module WidgetProperties.
Import AgentChatWidget.

(** A submission answered with a status outside 2xx: the user turn and one
    agent turn with the apology are appended, in this order, the input is
    cleared, loading ends, and exactly one request has been sent. *)
Lemma sendMessage_not_ok st net res :
  trim (input st) ≠ EmptyString →
  answers net (length (sent net)) = Responded res →
  ok res = false →
  sendMessage st net =
    (Returns (),
     mkState (open st) EmptyString false
       (history_ st ++ [mkTurn "user" (input st)] ++ [mkTurn "agent" apology]),
     mkNetwork (answers net)
       (sent net ++ [mkRequest (input st) (history_ st ++ [mkTurn "user" (input st)])])).
Proof.
  intros Hinput Hanswer Hok. unfold sendMessage.
  apply String.eqb_neq in Hinput. rewrite Hinput.
  unfold agentChat, fetch_agent_chat. rewrite Hanswer, Hok. simpl.
  unfold setLoading, setHistory, setInput. simpl. by rewrite <- app_assoc.
Qed.

(** A submission whose [fetch] rejects: nothing catches the rejection, so
    the function stops at its [await]; the user turn stays appended, no agent
    turn follows, and [loading] is left set. *)
Lemma sendMessage_rejected st net e :
  trim (input st) ≠ EmptyString →
  answers net (length (sent net)) = Rejected e →
  sendMessage st net =
    (Throws e,
     mkState (open st) EmptyString true (history_ st ++ [mkTurn "user" (input st)]),
     mkNetwork (answers net)
       (sent net ++ [mkRequest (input st) (history_ st ++ [mkTurn "user" (input st)])])).
Proof.
  intros Hinput Hanswer. unfold sendMessage.
  apply String.eqb_neq in Hinput. rewrite Hinput.
  unfold agentChat, fetch_agent_chat. by rewrite Hanswer.
Qed.

(** C9 at a transport error.  The widget holds one agent turn and the
    input "Show all offline machines"; the [fetch] of the submission rejects.
    The history ends with the user turn, no apology is appended, the
    submission settles as a rejection and the widget stays in its loading
    state. *)
Lemma sendMessage_transport_error :
  let st := mkState true "Show all offline machines" false
              [mkTurn "agent" "How can I help?"] in
  let net := mkNetwork (λ _, Rejected (TypeError "Failed to fetch")) [] in
  let '(outcome, st', net') := sendMessage st net in
  outcome = Throws (TypeError "Failed to fetch")
  ∧ history_ st' = [ mkTurn "agent" "How can I help?";
                     mkTurn "user" "Show all offline machines" ]
  ∧ (mkTurn "agent" apology ∉ history_ st')
  ∧ loading st' = true
  ∧ length (sent net') = 1.
Proof.
  simpl. repeat split.
  intros Hin. by repeat (apply elem_of_cons in Hin as [? | Hin]; [done |]);
    apply elem_of_nil in Hin.
Qed.
End WidgetProperties.

(** ** Sanity checks of the helpers *)

Lemma toFixed_samples :
  toFixed 2 0 = "0.00" ∧ toFixed 2 1.25 = "1.25" ∧ toFixed 2 0.125 = "0.13"
  ∧ toFixed 2 (- (Z2float 1 / Z2float 1000)) = "-0.00"
  ∧ toFixed 2 123456 = "123456.00"
  ∧ toFixed 0 2.5 = "3"
  ∧ toFixed 2 (Z2float 1 / Z2float 3) = "0.33"
  ∧ toFixed 2 (Z2float 1005 / Z2float 1000) = "1.00"
  ∧ toFixed 2 (Z2float 201 / Z2float 200) = "1.00"
  ∧ toFixed 2 (0 / 0) = "NaN"
  ∧ toFixed 2 (1 / 0) = "Infinity"
  ∧ toFixed 2 (Z2float (10 ^ 21)) = "1e+21"
  ∧ toFixed 2 (Z2float (15 * 10 ^ 20)) = "1.5e+21"
  ∧ toFixed 2 (Z2float (10 ^ 23)) = "1e+23"
  ∧ toFixed 2 (- Z2float (2 ^ 70)) = "-1.1805916207174113e+21"
  ∧ toFixed 2 (Z2float (10 ^ 21 - 1)) = "1e+21"
  ∧ toFixed 2 (Z2float 999999999999999868928) = "999999999999999868928.00".
Proof. repeat split; reflexivity. Qed.

Lemma trim_samples :
  AgentChatWidget.trim "  hello world  " = "hello world"
  ∧ AgentChatWidget.trim "   " = EmptyString
  ∧ AgentChatWidget.trim
      (String (ascii_of_nat 194) (String (ascii_of_nat 160) EmptyString)) = EmptyString
  ∧ AgentChatWidget.trim
      (String (ascii_of_nat 227) (String (ascii_of_nat 128) (String (ascii_of_nat 128)
         ("a " +:+ String (ascii_of_nat 239) (String (ascii_of_nat 187)
                     (String (ascii_of_nat 191) EmptyString))))))
    = "a"
  ∧ AgentChatWidget.trim
      (String (ascii_of_nat 195) (String (ascii_of_nat 160) EmptyString))
    = String (ascii_of_nat 195) (String (ascii_of_nat 160) EmptyString).
Proof. repeat split; reflexivity. Qed.


(** No inherited name is a declared function. *)
Lemma inherited_names_not_declared (name : string) :
  is_Some (Object_prototype !! name) → functionMap !! name = None.
Proof.
  intros [m Hm]. apply not_elem_of_dom. apply elem_of_dom_2 in Hm.
  unfold Object_prototype in Hm. rewrite dom_list_to_map_L in Hm.
  unfold functionMap. rewrite dom_list_to_map_L.
  rewrite elem_of_list_to_set in *. simpl in *.
  intros Hin. set_unfold. destruct_or!; subst; discriminate.
Qed.

(** ** The id list of a summary can be read back *)

Lemma append_cons a s t : String a s +:+ t = String a (s +:+ t).
Proof. reflexivity. Qed.

Lemma append_assoc s t u : (s +:+ t) +:+ u = s +:+ (t +:+ u).
Proof.
  induction s as [|a s IH]; [done |]. by rewrite !append_cons, IH.
Qed.

Lemma split_go_step cur a rest :
  a ≠ ","%char →
  split_go cur (String a rest) = split_go (cur +:+ String a EmptyString) rest.
Proof.
  intros Ha. apply Ascii.eqb_neq in Ha.
  destruct rest as [|b rest]; simpl; by rewrite ?Ha.
Qed.

(** A comma-free piece is read up to the separator that follows it, or up to
    the end of the text. *)
Lemma split_go_piece cur id :
  comma_free id = true →
  split_go cur id = [cur +:+ id]
  ∧ ∀ rest, split_go cur (id +:+ ", " +:+ rest) = (cur +:+ id) :: split_go EmptyString rest.
Proof.
  revert cur. induction id as [|a id IH]; intros cur Hfree.
  - rewrite append_empty_r. split; [done |]. intros rest. reflexivity.
  - simpl in Hfree. apply andb_true_iff in Hfree as [Ha Hfree].
    apply negb_true_iff, Ascii.eqb_neq in Ha.
    destruct (IH (cur +:+ String a EmptyString) Hfree) as [IH1 IH2].
    rewrite append_assoc in IH1, IH2. split.
    + by rewrite split_go_step.
    + intros rest. rewrite append_cons. by rewrite split_go_step.
Qed.

(** When no id contains a comma, splitting the id list of a summary of at
    least one row at ", " gives back the ids, so that the count announced is
    the number of ids a reader finds. *)
Lemma split_join (ids : list string) :
  ids ≠ [] →
  Forall (λ id, comma_free id = true) ids →
  split_comma_space (join ", " (Some <$> ids)) = ids.
Proof.
  intros Hne Hfree. unfold split_comma_space.
  induction Hfree as [|id ids Hid Hfree IH]; [done |].
  destruct ids as [|id' ids].
  - simpl. by destruct (split_go_piece EmptyString id Hid) as [-> _].
  - change (join ", " (Some <$> id :: id' :: ids))
      with (id +:+ ", " +:+ join ", " (Some <$> id' :: ids)).
    destruct (split_go_piece EmptyString id Hid) as [_ ->].
    by rewrite IH.
Qed.

(** * Further properties of the handlers *)

(** ** A request the store accepts *)

Lemma store_request_accepted {A} (run : Database → A * Database) w :
  store_replies w (requests w) = None →
  store_request run w =
    (Returns (mkResponse (Some (run (db w)).1) None),
     mkWorld (run (db w)).2 (clock w) (reads w) (store_replies w) (S (requests w))).
Proof. intros Hok. unfold store_request. rewrite Hok. by destruct (run (db w)). Qed.

Lemma store_request_rejected {A} (run : Database → A * Database) w e :
  store_replies w (requests w) = Some e →
  store_request run w =
    (Returns (mkResponse None (Some e)),
     mkWorld (db w) (clock w) (reads w) (store_replies w) (S (requests w))).
Proof. intros He. unfold store_request. by rewrite He. Qed.

Lemma filter_is_offline (l : list Machine.t) :
  filter (λ r, is_offline r = true) l
  = filter (λ m, Machine.current_status m = "Offline") l.
Proof.
  apply list_filter_iff. intros m. unfold is_offline. by rewrite String.eqb_eq.
Qed.

Lemma getOfflineMachines_accepted args w :
  store_replies w (requests w) = None →
  getOfflineMachines args w =
    (Returns (found (length (filter (λ m, Machine.current_status m = "Offline")
                               (machines (db w))))
                "offline machines"
                (Machine.machine_id
                   <$> filter (λ m, Machine.current_status m = "Offline") (machines (db w)))),
     mkWorld (db w) (clock w) (reads w) (store_replies w) (S (requests w))).
Proof.
  intros Hok. unfold getOfflineMachines, select_where, bind.
  rewrite store_request_accepted by done. simpl. by rewrite filter_is_offline.
Qed.

Lemma addMachine_accepted args w :
  store_replies w (requests w) = None →
  addMachine args w =
    (Returns ("Machine " +:+ dquote +:+ template (args !! "machine_id") +:+ dquote
              +:+ " (" +:+ template (args !! "machine_type")
              +:+ ") added to laundromat " +:+ template (args !! "laundromat_id") +:+ "."),
     mkWorld
       (with_machines
          (λ rows, rows ++
             [Machine.mk (args !! "machine_id") (args !! "laundromat_id")
                (args !! "machine_type") (or_string (args !! "current_status") "Available")
                None (clock w (reads w)) (clock w (S (reads w)))])
          (db w))
       (clock w) (S (S (reads w))) (store_replies w) (S (requests w))).
Proof.
  intros Hok. unfold addMachine, insert_single, bind, Date_now.
  rewrite store_request_accepted by done. done.
Qed.

(** ** Inserting rows *)

(** X1.  When the store accepts the insert and the required arguments are
    given, addLaundromat, addUser and addDriver each append exactly one row
    made of the arguments (the optional one as given or NULL) to their own
    table, leave the other tables alone, and return a summary that names the
    key fields verbatim. *)
Theorem insert_handlers_success (args : Args) (w : World) :
  store_replies w (requests w) = None →
  (∀ n a b, args !! "name" = Some n → args !! "address" = Some a →
     args !! "borough" = Some b →
     (addLaundromat args w).1
       = Returns ("Laundromat " +:+ dquote +:+ n +:+ dquote +:+ " at " +:+ a
                  +:+ " (" +:+ b +:+ ") added successfully.")
     ∧ db (addLaundromat args w).2
       = with_laundromats
           (λ rows, rows ++ [Laundromat.mk (Some n) (Some a) (Some b) (args !! "phone")])
           (db w))
  ∧ (∀ n e, args !! "full_name" = Some n → args !! "email" = Some e →
       (addUser args w).1
         = Returns ("User " +:+ dquote +:+ n +:+ dquote +:+ " (" +:+ e
                    +:+ ") added successfully.")
       ∧ db (addUser args w).2
         = with_users (λ rows, rows ++ [User.mk (Some n) (Some e) (args !! "phone")]) (db w))
  ∧ (∀ n p, args !! "full_name" = Some n → args !! "phone" = Some p →
       (addDriver args w).1
         = Returns ("Driver " +:+ dquote +:+ n +:+ dquote +:+ " (" +:+ p
                    +:+ ") added successfully.")
       ∧ db (addDriver args w).2
         = with_drivers (λ rows, rows ++ [Driver.mk (Some n) (Some p) (args !! "email")]) (db w)).
Proof.
  intros Hok. split; [| split].
  - intros n a b Hn Ha Hb. unfold addLaundromat, insert_single, bind.
    rewrite store_request_accepted by done. simpl. by rewrite Hn, Ha, Hb.
  - intros n e Hn He. unfold addUser, insert_single, bind.
    rewrite store_request_accepted by done. simpl. by rewrite Hn, He.
  - intros n p Hn Hp. unfold addDriver, insert_single, bind.
    rewrite store_request_accepted by done. simpl. by rewrite Hn, Hp.
Qed.

Lemma insert_handlers_success_witness :
  let w := sample_world no_faults in
  let args : Args := {[ "name" := "Suds"; "address" := "1 Main St"; "borough" := "Queens" ]} in
  (addLaundromat args w).1
    = Returns ("Laundromat " +:+ dquote +:+ "Suds" +:+ dquote
               +:+ " at 1 Main St (Queens) added successfully.")
  ∧ participating_laundromats (db (addLaundromat args w).2)
    = [Laundromat.mk (Some "Suds") (Some "1 Main St") (Some "Queens") None].
Proof.
  intros w args.
  destruct (insert_handlers_success args w eq_refl) as (Hl & _ & _).
  destruct (Hl "Suds" "1 Main St" "Queens" eq_refl eq_refl eq_refl) as [Ho Hd].
  split; [exact Ho |]. by rewrite Hd.
Defined.

(** X2.  When the store accepts the insert, the row addMachine appends
    carries the three ids as given, no revenue (NULL), and as [created_at]
    and [updated_at] the two readings of the clock the handler takes, in this
    order; the other tables are left alone, and with the required arguments
    given the summary names them verbatim. *)
Theorem addMachine_row (args : Args) (w : World) :
  store_replies w (requests w) = None →
  ∃ row : Machine.t,
    db (addMachine args w).2 = with_machines (λ rows, rows ++ [row]) (db w)
    ∧ Machine.machine_id row = args !! "machine_id"
    ∧ Machine.laundromat_id row = args !! "laundromat_id"
    ∧ Machine.machine_type row = args !! "machine_type"
    ∧ Machine.average_monthly_revenue row = None
    ∧ Machine.created_at row = clock w (reads w)
    ∧ Machine.updated_at row = clock w (S (reads w))
    ∧ (∀ i l t, args !! "machine_id" = Some i → args !! "laundromat_id" = Some l →
         args !! "machine_type" = Some t →
         (addMachine args w).1
           = Returns ("Machine " +:+ dquote +:+ i +:+ dquote +:+ " (" +:+ t
                      +:+ ") added to laundromat " +:+ l +:+ ".")).
Proof.
  intros Hok. rewrite addMachine_accepted by done. simpl.
  eexists. split; [reflexivity |]. simpl. repeat split.
  intros i l t -> -> ->. done.
Qed.

Lemma addMachine_row_witness :
  let w := sample_world no_faults in
  let args : Args :=
    {[ "machine_id" := "W9"; "laundromat_id" := "L1"; "machine_type" := "Washer" ]} in
  (∃ row, machines (db (addMachine args w).2) = [sample_W1; sample_W2; sample_W3; row]
          ∧ Machine.machine_id row = Some "W9"
          ∧ Machine.average_monthly_revenue row = None
          ∧ Machine.created_at row = sample_now
          ∧ Machine.updated_at row = sample_now)
  ∧ (addMachine args w).1
    = Returns ("Machine " +:+ dquote +:+ "W9" +:+ dquote
               +:+ " (Washer) added to laundromat L1.").
Proof.
  intros w args.
  destruct (addMachine_row args w eq_refl)
    as (row & Hd & Hi & Hl & Ht & Hr & Hc & Hu & Hs).
  split; [| exact (Hs "W9" "L1" "Washer" eq_refl eq_refl eq_refl)].
  exists row. rewrite Hd. repeat split; assumption.
Defined.

(** X3.  A machine added as "Offline" is found by the next getOfflineMachines:
    the count grows by one and its id is listed last.  A machine added with
    any other status (or none) leaves the answer as it was. *)
Theorem addMachine_then_getOfflineMachines (args args' : Args) (w : World) :
  store_replies w (requests w) = None →
  store_replies w (S (requests w)) = None →
  let ids := Machine.machine_id
               <$> filter (λ m, Machine.current_status m = "Offline") (machines (db w)) in
  let after := (getOfflineMachines args' (addMachine args w).2).1 in
  (args !! "current_status" = Some "Offline" →
   after = Returns ("Found " +:+ pretty (S (length ids)) +:+ " offline machines: "
                    +:+ join ", " (ids ++ [args !! "machine_id"])))
  ∧ (args !! "current_status" ≠ Some "Offline" →
     after = Returns ("Found " +:+ pretty (length ids) +:+ " offline machines: "
                      +:+ join ", " ids)).
Proof.
  intros Hok Hok' ids after. subst after.
  rewrite addMachine_accepted by done.
  rewrite getOfflineMachines_accepted by done. simpl.
  rewrite filter_app, length_app, fmap_app. unfold found. split.
  - intros Hs. rewrite Hs. simpl. subst ids. rewrite length_fmap.
    by rewrite Nat.add_1_r.
  - intros Hs. rewrite filter_cons_False, filter_nil.
    + simpl. subst ids. by rewrite length_fmap, Nat.add_0_r, app_nil_r.
    + simpl. destruct (args !! "current_status") as [s|] eqn:E; simpl; [| done].
      destruct (String.eqb_spec s EmptyString) as [-> | Hne]; [done |].
      intros ->. done.
Qed.

Lemma addMachine_then_getOfflineMachines_witness :
  let w := sample_world no_faults in
  (getOfflineMachines ∅
     (addMachine {[ "machine_id" := "W9"; "current_status" := "Offline" ]} w).2).1
    = Returns "Found 2 offline machines: W3, W9"
  ∧ (getOfflineMachines ∅ (addMachine {[ "machine_id" := "W9" ]} w).2).1
    = Returns "Found 1 offline machines: W3".
Proof.
  intros w. split.
  - destruct (addMachine_then_getOfflineMachines
                {[ "machine_id" := "W9"; "current_status" := "Offline" ]} ∅ w
                eq_refl eq_refl) as [H _].
    exact (H eq_refl).
  - destruct (addMachine_then_getOfflineMachines {[ "machine_id" := "W9" ]} ∅ w
                eq_refl eq_refl) as [_ H].
    apply H. discriminate.
Defined.

(** X4.  A machine added through addMachine has no revenue yet, so the next
    getRevenueAnalytics gives the same totals as it would have given before
    the insert, whatever the arguments of the insert were. *)
Theorem addMachine_then_getRevenueAnalytics (args args' : Args) (w : World) :
  store_replies w (requests w) = None →
  store_replies w (S (requests w)) = None →
  (getRevenueAnalytics args' (addMachine args w).2).1 = (getRevenueAnalytics args' w).1.
Proof.
  intros Hok Hok'. rewrite addMachine_accepted by done.
  unfold getRevenueAnalytics, select_where, bind.
  rewrite !store_request_accepted by done. simpl.
  rewrite filter_app. rewrite (filter_cons_False _ _ []), filter_nil, app_nil_r; [done |].
  unfold has_revenue. simpl. discriminate.
Qed.

Lemma addMachine_then_getRevenueAnalytics_witness :
  (getRevenueAnalytics ∅
     (addMachine {[ "machine_id" := "W9" ]} (sample_world no_faults)).2).1
  = Returns "Total Monthly Revenue: $120.00, Average per Machine: $120.00".
Proof.
  rewrite (addMachine_then_getRevenueAnalytics {[ "machine_id" := "W9" ]} ∅
             (sample_world no_faults) eq_refl eq_refl).
  reflexivity.
Defined.

(** ** What the handlers do to the store *)

(** The entries of the registry, one by one. *)
Lemma functionMap_cases (name : string) (h : Handler) :
  functionMap !! name = Some h →
  (name, h) ∈ [ ("addLaundromat", addLaundromat); ("addMachine", addMachine);
                ("addUser", addUser); ("addDriver", addDriver);
                ("getOfflineMachines", getOfflineMachines);
                ("getPendingBookings", getPendingBookings);
                ("getSystemHealth", getSystemHealth);
                ("triggerSelfHealing", triggerSelfHealing);
                ("getMachineAnalytics", getMachineAnalytics);
                ("getRevenueAnalytics", getRevenueAnalytics) ].
Proof. apply elem_of_list_to_map_2. Qed.

Ltac registry_cases H :=
  apply functionMap_cases in H;
  repeat (apply elem_of_cons in H as [H | H]; [injection H as -> -> |]);
  [ .. | by apply elem_of_nil in H ].

(** X5.  The five reading handlers (getOfflineMachines, getPendingBookings,
    getSystemHealth, getMachineAnalytics, getRevenueAnalytics) never change a
    table and never read the clock, whatever the store answers. *)
Theorem read_handlers_leave_store (name : string) (h : Handler) (args : Args) (w : World) :
  name ∈ [ "getOfflineMachines"; "getPendingBookings"; "getSystemHealth";
           "getMachineAnalytics"; "getRevenueAnalytics" ] →
  functionMap !! name = Some h →
  db (h args w).2 = db w ∧ reads (h args w).2 = reads w.
Proof.
  intros Hname Hh. registry_cases Hh;
    try (exfalso; set_unfold; destruct_or!; discriminate).
  - unfold getOfflineMachines. run_async.
    by destruct (store_replies w (requests w)).
  - unfold getPendingBookings. run_async.
    by destruct (store_replies w (requests w)).
  - unfold getSystemHealth. run_async.
    destruct (store_replies w (requests w)); simpl;
      destruct (store_replies w (S (requests w))); simpl;
      destruct (store_replies w (S (S (requests w)))); simpl;
      destruct (store_replies w (S (S (S (requests w))))); simpl; done.
  - unfold getMachineAnalytics. run_async.
    by destruct (store_replies w (requests w)).
  - unfold getRevenueAnalytics. run_async.
    by destruct (store_replies w (requests w)).
Qed.

Lemma read_handlers_leave_store_witness :
  db (getMachineAnalytics ∅ (sample_world no_faults)).2 = sample_db
  ∧ db (getSystemHealth ∅ (sample_world (fault_at 2 "timeout"))).2 = sample_db.
Proof.
  split.
  - apply (read_handlers_leave_store "getMachineAnalytics" getMachineAnalytics ∅
             (sample_world no_faults)); [| reflexivity].
    do 3 apply list_elem_of_further. apply list_elem_of_here.
  - apply (read_handlers_leave_store "getSystemHealth" getSystemHealth ∅
             (sample_world (fault_at 2 "timeout"))); [| reflexivity].
    do 2 apply list_elem_of_further. apply list_elem_of_here.
Defined.

(** X6.  Whatever the arguments and whatever the store answers, a writing
    handler touches its own table only: addLaundromat, addMachine, addUser and
    addDriver leave the four other tables as they were and their own table
    either as it was or longer by one row at its end; triggerSelfHealing
    leaves laundromats, users and drivers as they were and keeps the rows of
    machines and bookings in place, with their ids. *)
Theorem write_handlers_touch_own_table (args : Args) (w : World) :
  (let d := db (addLaundromat args w).2 in
   machines d = machines (db w) ∧ users d = users (db w)
   ∧ drivers d = drivers (db w) ∧ bookings d = bookings (db w)
   ∧ (participating_laundromats d = participating_laundromats (db w)
      ∨ ∃ row, participating_laundromats d = participating_laundromats (db w) ++ [row]))
  ∧ (let d := db (addMachine args w).2 in
     participating_laundromats d = participating_laundromats (db w)
     ∧ users d = users (db w) ∧ drivers d = drivers (db w)
     ∧ bookings d = bookings (db w)
     ∧ (machines d = machines (db w) ∨ ∃ row, machines d = machines (db w) ++ [row]))
  ∧ (let d := db (addUser args w).2 in
     participating_laundromats d = participating_laundromats (db w)
     ∧ machines d = machines (db w) ∧ drivers d = drivers (db w)
     ∧ bookings d = bookings (db w)
     ∧ (users d = users (db w) ∨ ∃ row, users d = users (db w) ++ [row]))
  ∧ (let d := db (addDriver args w).2 in
     participating_laundromats d = participating_laundromats (db w)
     ∧ machines d = machines (db w) ∧ users d = users (db w)
     ∧ bookings d = bookings (db w)
     ∧ (drivers d = drivers (db w) ∨ ∃ row, drivers d = drivers (db w) ++ [row]))
  ∧ (let d := db (triggerSelfHealing args w).2 in
     participating_laundromats d = participating_laundromats (db w)
     ∧ users d = users (db w) ∧ drivers d = drivers (db w)
     ∧ Machine.machine_id <$> machines d = Machine.machine_id <$> machines (db w)
     ∧ Booking.booking_id <$> bookings d = Booking.booking_id <$> bookings (db w)).
Proof.
  split_and!.
  - unfold addLaundromat. run_async.
    destruct (store_replies w (requests w)); simpl; split_and!; eauto.
  - unfold addMachine. run_async.
    destruct (store_replies w (requests w)); simpl; split_and!; eauto.
  - unfold addUser. run_async.
    destruct (store_replies w (requests w)); simpl; split_and!; eauto.
  - unfold addDriver. run_async.
    destruct (store_replies w (requests w)); simpl; split_and!; eauto.
  - destruct (triggerSelfHealing_world args w) as (Hm & Hb & Hl & Hu & Hd).
    simpl. rewrite Hm, Hb. split_and!; try done.
    + destruct (store_replies w (requests w)); [done |].
      rewrite <- list_fmap_compose. apply list_fmap_ext. intros i m _.
      unfold heal_machine. simpl. by destruct (is_stuck _ m).
    + destruct (store_replies w (S (requests w))); [done |].
      rewrite <- list_fmap_compose. apply list_fmap_ext. intros i b _.
      unfold heal_booking. simpl. by destruct (is_stale _ b).
Qed.

(** X7.  The number of requests a handler sends to the store does not depend
    on the answers: four for getSystemHealth, two for triggerSelfHealing (the
    booking sweep is sent even when the machine sweep was rejected), one for
    every other handler.  The scripts of the store and of the clock are left
    as they were. *)
Theorem handler_request_count (name : string) (h : Handler) (args : Args) (w : World) :
  functionMap !! name = Some h →
  requests (h args w).2
    = requests w
      + (if String.eqb name "getSystemHealth" then 4
         else if String.eqb name "triggerSelfHealing" then 2 else 1)
  ∧ store_replies (h args w).2 = store_replies w
  ∧ clock (h args w).2 = clock w.
Proof.
  intros Hh. registry_cases Hh; simpl.
  - unfold addLaundromat. run_async.
    destruct (store_replies w (requests w)); simpl; repeat split; lia.
  - unfold addMachine. run_async.
    destruct (store_replies w (requests w)); simpl; repeat split; lia.
  - unfold addUser. run_async.
    destruct (store_replies w (requests w)); simpl; repeat split; lia.
  - unfold addDriver. run_async.
    destruct (store_replies w (requests w)); simpl; repeat split; lia.
  - unfold getOfflineMachines. run_async.
    destruct (store_replies w (requests w)); simpl; repeat split; lia.
  - unfold getPendingBookings. run_async.
    destruct (store_replies w (requests w)); simpl; repeat split; lia.
  - unfold getSystemHealth. run_async.
    destruct (store_replies w (requests w)); simpl;
      destruct (store_replies w (S (requests w))); simpl;
      destruct (store_replies w (S (S (requests w)))); simpl;
      destruct (store_replies w (S (S (S (requests w))))); simpl;
      repeat split; lia.
  - unfold triggerSelfHealing. run_async.
    destruct (store_replies w (requests w)); simpl;
      destruct (store_replies w (S (requests w))); simpl; repeat split; lia.
  - unfold getMachineAnalytics. run_async.
    destruct (store_replies w (requests w)); simpl; repeat split; lia.
  - unfold getRevenueAnalytics. run_async.
    destruct (store_replies w (requests w)); simpl; repeat split; lia.
Qed.

Lemma handler_request_count_witness :
  requests (triggerSelfHealing ∅ (sample_world (fault_at 0 "timeout"))).2 = 2
  ∧ requests (getSystemHealth ∅ (sample_world no_faults)).2 = 4
  ∧ requests (addUser ∅ (sample_world no_faults)).2 = 1.
Proof.
  split; [| split].
  - by destruct (handler_request_count "triggerSelfHealing" triggerSelfHealing ∅
                   (sample_world (fault_at 0 "timeout")) eq_refl) as [-> _].
  - by destruct (handler_request_count "getSystemHealth" getSystemHealth ∅
                   (sample_world no_faults) eq_refl) as [-> _].
  - by destruct (handler_request_count "addUser" addUser ∅
                   (sample_world no_faults) eq_refl) as [-> _].
Defined.

(** ** The sweep, when both updates go through *)

Lemma filter_is_stuck cutoff (l : list Machine.t) :
  filter (λ m, is_stuck cutoff m = true) l
  = filter (λ m, Machine.current_status m = "In Use"
                 ∧ (Machine.updated_at m < cutoff)%Z) l.
Proof.
  apply list_filter_iff. intros m. unfold is_stuck.
  by rewrite andb_true_iff, String.eqb_eq, Z.ltb_lt.
Qed.

Lemma filter_is_stale cutoff (l : list Booking.t) :
  filter (λ b, is_stale cutoff b = true) l
  = filter (λ b, Booking.status b = "Pending"
                 ∧ (Booking.created_at b < cutoff)%Z) l.
Proof.
  apply list_filter_iff. intros b. unfold is_stale.
  by rewrite andb_true_iff, String.eqb_eq, Z.ltb_lt.
Qed.

(** X8.  When the store carries out both sweeps, triggerSelfHealing returns
    "Self-healing complete. Reset <n> stuck machines and <k> stale bookings."
    where n and k count the rows that matched before the sweep; afterwards no
    machine is "In Use" with [updated_at] before the machine cutoff and no
    booking is "Pending" with [created_at] before the booking cutoff; and in
    every machine row only the status can differ from before (in particular
    [updated_at] is not refreshed). *)
Theorem triggerSelfHealing_success (args : Args) (w : World) :
  store_replies w (requests w) = None →
  store_replies w (S (requests w)) = None →
  let w' := (triggerSelfHealing args w).2 in
  let cutoff := (clock w (reads w) - 24 * 60 * 60 * 1000)%Z in
  let cutoff' := (clock w (S (reads w)) - 7 * 24 * 60 * 60 * 1000)%Z in
  (triggerSelfHealing args w).1
    = Returns ("Self-healing complete. Reset "
        +:+ pretty (length (filter (λ m, Machine.current_status m = "In Use"
                                         ∧ (Machine.updated_at m < cutoff)%Z)
                              (machines (db w))))
        +:+ " stuck machines and "
        +:+ pretty (length (filter (λ b, Booking.status b = "Pending"
                                         ∧ (Booking.created_at b < cutoff')%Z)
                              (bookings (db w))))
        +:+ " stale bookings.")
  ∧ (∀ m, m ∈ machines (db w') →
       ¬ (Machine.current_status m = "In Use" ∧ (Machine.updated_at m < cutoff)%Z))
  ∧ (∀ b, b ∈ bookings (db w') →
       ¬ (Booking.status b = "Pending" ∧ (Booking.created_at b < cutoff')%Z))
  ∧ (∀ i m m', machines (db w) !! i = Some m → machines (db w') !! i = Some m' →
       Machine.set_current_status (Machine.current_status m) m' = m).
Proof.
  intros Hok Hok' w' cutoff cutoff'.
  destruct (triggerSelfHealing_world args w) as (Hm & Hb & _).
  fold w' in Hm, Hb. rewrite Hok in Hm. rewrite Hok' in Hb.
  split; [| split; [| split]].
  - rewrite triggerSelfHealing_outcome, Hok, Hok'.
    by rewrite filter_is_stuck, filter_is_stale.
  - intros m'. rewrite Hm. intros (m & -> & _)%list_elem_of_fmap.
    unfold heal_machine.
    destruct (is_stuck _ m) eqn:E; simpl.
    + by intros [? _].
    + intros [Hs Hage]. unfold is_stuck in E.
      apply andb_false_iff in E as [E | E].
      * by apply String.eqb_neq in E.
      * apply Z.ltb_ge in E. subst cutoff. unfold day_ms in E. lia.
  - intros b'. rewrite Hb. intros (b & -> & _)%list_elem_of_fmap.
    unfold heal_booking.
    destruct (is_stale _ b) eqn:E; simpl.
    + by intros [? _].
    + intros [Hs Hage]. unfold is_stale in E.
      apply andb_false_iff in E as [E | E].
      * by apply String.eqb_neq in E.
      * apply Z.ltb_ge in E. subst cutoff'. unfold day_ms in E. lia.
  - intros i m m' Hi. rewrite Hm, list_lookup_fmap, Hi. simpl.
    intros [= <-]. unfold heal_machine.
    destruct (is_stuck _ m); by destruct m.
Qed.

Lemma triggerSelfHealing_success_witness :
  let r := triggerSelfHealing ∅ (sample_world no_faults) in
  r.1 = Returns "Self-healing complete. Reset 1 stuck machines and 1 stale bookings."
  ∧ (∀ m', machines (db r.2) !! 0 = Some m' →
       Machine.set_current_status "In Use" m' = sample_W1).
Proof.
  intros r. subst r.
  destruct (triggerSelfHealing_success ∅ (sample_world no_faults) eq_refl eq_refl)
    as (Ho & _ & _ & Hcols).
  split; [rewrite Ho; reflexivity |].
  intros m' Hm'. exact (Hcols 0 sample_W1 m' eq_refl Hm').
Defined.

(** ** The health check *)

(** X9.  getSystemHealth never throws.  It reports a healthy system exactly
    when none of its four probes is answered with an error, and a degraded
    one exactly when at least one is; the contents of the tables play no
    part. *)
Theorem getSystemHealth_healthy_iff (args : Args) (w : World) :
  ((getSystemHealth args w).1 = Returns "System is healthy. All services operational."
   ↔ ∀ k, k < 4 → store_replies w (k + requests w) = None)
  ∧ ((getSystemHealth args w).1
       = Returns "System issues detected. Some services may be degraded."
     ↔ ∃ k, k < 4 ∧ is_Some (store_replies w (k + requests w))).
Proof.
  destruct (getSystemHealth_outcome args w) as [-> _].
  destruct (store_replies w (requests w)) as [e0|] eqn:E0;
    destruct (store_replies w (S (requests w))) as [e1|] eqn:E1;
    destruct (store_replies w (S (S (requests w)))) as [e2|] eqn:E2;
    destruct (store_replies w (S (S (S (requests w))))) as [e3|] eqn:E3;
    (split; split;
     [ intros Hr; try discriminate Hr
     | intros Hall
     | intros Hr; try discriminate Hr
     | intros (k & Hk & Hsome) ]);
    try (specialize (Hall 0 ltac:(lia)) as H0; simpl in H0; congruence);
    try (specialize (Hall 1 ltac:(lia)) as H1; simpl in H1; congruence);
    try (specialize (Hall 2 ltac:(lia)) as H2; simpl in H2; congruence);
    try (specialize (Hall 3 ltac:(lia)) as H3; simpl in H3; congruence);
    try (exists 0; split; [lia | simpl; rewrite E0; by eexists]);
    try (exists 1; split; [lia | simpl; rewrite E1; by eexists]);
    try (exists 2; split; [lia | simpl; rewrite E2; by eexists]);
    try (exists 3; split; [lia | simpl; rewrite E3; by eexists]);
    try reflexivity.
  - intros k Hk. destruct k as [|[|[|[|k]]]]; simpl; [done | done | done | done | lia].
  - destruct k as [|[|[|[|k]]]]; simpl in Hsome; [| | | | lia];
      destruct Hsome as [? Hsome]; congruence.
Qed.

(** ** The status distribution *)

(** One more status: the count under its key goes up by one, the other
    entries stay. *)
Lemma tally_lookup (acc : list (string * nat)) (s : string) :
  (list_to_map (tally acc s) : gmap string nat)
  = <[s := default 0 ((list_to_map acc : gmap string nat) !! s) + 1]> (list_to_map acc).
Proof.
  induction acc as [|[k n] acc IH]; simpl; [done |].
  destruct (String.eqb_spec k s) as [-> | Hne]; simpl.
  - by rewrite lookup_insert_eq, insert_insert_eq, or_nat_0.
  - rewrite IH, lookup_insert_ne by done. by apply insert_insert_ne.
Qed.

Lemma tally_keys (acc : list (string * nat)) (s : string) :
  (tally acc s).*1 = if decide (s ∈ acc.*1) then acc.*1 else acc.*1 ++ [s].
Proof.
  induction acc as [|[k n] acc IH]; csimpl; [done |].
  destruct (String.eqb_spec k s) as [-> | Hne]; csimpl.
  - rewrite decide_True; [done | apply list_elem_of_here].
  - rewrite IH. destruct (decide (s ∈ acc.*1)) as [Hin | Hout].
    + rewrite decide_True; [done | by apply list_elem_of_further].
    + rewrite decide_False; [done |].
      intros [? | ?]%elem_of_cons; congruence.
Qed.

Lemma tally_NoDup (acc : list (string * nat)) (s : string) :
  NoDup acc.*1 → NoDup (tally acc s).*1.
Proof.
  intros Hnd. rewrite tally_keys. case_decide; [done |].
  apply NoDup_app. split_and!; [done | | apply NoDup_singleton].
  intros x Hx ->%list_elem_of_singleton. done.
Qed.

Lemma tally_sum (acc : list (string * nat)) (s : string) :
  sum_list (tally acc s).*2 = sum_list acc.*2 + 1.
Proof.
  induction acc as [|[k n] acc IH]; csimpl; [done |].
  destruct (String.eqb_spec k s) as [-> | Hne]; csimpl.
  - rewrite or_nat_0. lia.
  - rewrite IH. lia.
Qed.

Lemma occurrences_snoc s t l :
  occurrences s (l ++ [t]) = occurrences s l + (if decide (t = s) then 1 else 0).
Proof.
  unfold occurrences. rewrite filter_app, length_app. f_equal.
  case_decide.
  - by rewrite filter_cons_True.
  - by rewrite filter_cons_False.
Qed.

(** The accumulator after a run of statuses. *)
Lemma tally_all (l : list string) :
  ∀ seen acc,
    NoDup acc.*1 →
    (∀ s, (list_to_map acc : gmap string nat) !! s
          = if decide (occurrences s seen = 0) then None else Some (occurrences s seen)) →
    let counts := foldl tally acc l in
    NoDup counts.*1
    ∧ (∀ s, (list_to_map counts : gmap string nat) !! s
            = if decide (occurrences s (seen ++ l) = 0) then None
              else Some (occurrences s (seen ++ l)))
    ∧ sum_list counts.*2 = sum_list acc.*2 + length l.
Proof.
  induction l as [|t l IH]; intros seen acc Hnd Hacc; simpl.
  - rewrite app_nil_r. split_and!; [done | done | lia].
  - destruct (IH (seen ++ [t]) (tally acc t)) as (Hnd' & Hl & Hsum).
    + by apply tally_NoDup.
    + intros s. rewrite tally_lookup, occurrences_snoc.
      destruct (decide (t = s)) as [-> | Hne].
      * rewrite lookup_insert_eq, Hacc.
        destruct (decide (occurrences s seen = 0)) as [-> | ?]; simpl.
        -- done.
        -- rewrite decide_False by lia. done.
      * rewrite lookup_insert_ne by done. rewrite Hacc, Nat.add_0_r. done.
    + rewrite <- app_assoc in Hl. simpl in Hl.
      split_and!; [done | done |]. rewrite Hsum, tally_sum. lia.
Qed.

Lemma filter_all {A} (l : list A) : filter (λ _ : A, true = true) l = l.
Proof.
  induction l as [|x l IH]; [done |]. by rewrite filter_cons_True, IH.
Qed.

(** X10.  When the store answers and the statuses are ordinary words,
    getMachineAnalytics returns "Machine Status Distribution: " followed by
    the entries "<status>: <count>" joined by ", ", where every status that
    occurs among the machines has exactly one entry, its count is the number
    of machines with that status, no other status has an entry, and the
    counts add up to the number of machines. *)
Theorem getMachineAnalytics_counts (args : Args) (w : World) :
  store_replies w (requests w) = None →
  let statuses := Machine.current_status <$> machines (db w) in
  Forall ordinary_status statuses →
  ∃ counts : list (string * nat),
    (getMachineAnalytics args w).1
      = Returns ("Machine Status Distribution: "
                 +:+ join ", " ((λ '(status, count), Some (status +:+ ": " +:+ pretty count))
                                <$> counts))
    ∧ NoDup counts.*1
    ∧ (∀ s n, (s, n) ∈ counts ↔ n = occurrences s statuses ∧ 0 < n)
    ∧ sum_list counts.*2 = length (machines (db w)).
Proof.
  intros Hok statuses _. exists (foldl tally [] statuses).
  destruct (tally_all statuses [] []) as (Hnd & Hl & Hsum); [constructor | done |].
  simpl in Hl, Hsum. split_and!.
  - unfold getMachineAnalytics, select_where, bind.
    rewrite store_request_accepted by done. simpl.
    by rewrite filter_all.
  - done.
  - intros s n. rewrite elem_of_list_to_map by done. rewrite Hl.
    case_decide; split; intros H'; try discriminate; try lia.
    + injection H' as <-. lia.
    + destruct H' as [-> _]. done.
  - rewrite Hsum. subst statuses. by rewrite length_fmap.
Qed.

Lemma getMachineAnalytics_counts_witness :
  (getMachineAnalytics ∅ (sample_world no_faults)).1
  = Returns "Machine Status Distribution: In Use: 2, Offline: 1".
Proof.
  destruct (getMachineAnalytics_counts ∅ (sample_world no_faults) eq_refl)
    as (counts & Ho & _).
  - repeat constructor; (by right) || done.
  - reflexivity.
Defined.

(** * Further properties of the dispatch loop *)

Section DispatchCoverage.
Variable JSON_parse : string → option Args.
Variable JSON_stringify : JsValue → option string.


(** X12.  Once a registered handler has returned, the world it left is the
    world POST leaves, whatever the completion service does with the
    follow-up request: if that request is rejected or its body is no JSON,
    POST throws after the handler's writes; if the body is JSON, POST replies
    with status 200 and the content of its first choice, or "Action
    completed." when there is none, without looking at the status of the
    follow-up response. *)
Theorem POST_after_handler env req w apiKey response data fc (h : Handler) result w' :
  OPENAI_API_KEY env = Some apiKey →
  apiKey ≠ EmptyString →
  chat_completions env (first_request apiKey req) = Responded response →
  ok response = true →
  json response = Some data →
  function_call_signal (first_choice data) = Some fc →
  functionMap !! Chat.name fc = Some h →
  h (default ∅ (JSON_parse (Chat.arguments fc))) w = (Returns result, w') →
  let r := POST JSON_parse JSON_stringify env req w in
  let answer := chat_completions env (follow_up_request JSON_stringify apiKey req fc result) in
  r.2 = w'
  ∧ (∀ e, answer = Rejected e → r.1 = Throws e)
  ∧ (∀ f, answer = Responded f → json f = None →
       r.1 = Throws (SyntaxError "Unexpected token in JSON"))
  ∧ (∀ f d, answer = Responded f → json f = Some d →
       r.1 = Returns (mkHttpResponse 200
               (reply (or_string (message_content (first_choice d)) "Action completed.")))
       ∧ or_string (message_content (first_choice d)) "Action completed." ≠ EmptyString).
Proof.
  intros Hkey Hne Hfetch Hok Hjson Hsig Hh Hrun r answer. subst r.
  rewrite (POST_after_first_response JSON_parse JSON_stringify env req w apiKey response data)
    by assumption.
  rewrite Hsig. unfold functionMap_get. rewrite Hh.
  unfold call_and_follow_up, call, bind, ret. simpl. rewrite Hrun.
  unfold follow_up, bind, fetch, response_json, ret, throw.
  fold (follow_up_request JSON_stringify apiKey req fc result). fold answer.
  clearbody answer. destruct answer as [e | f]; simpl.
  - split_and!; [done | intros; congruence | done | done].
  - destruct (json f) as [d|] eqn:Ej; simpl.
    + split_and!; [done | done | intros ? [= <-] ?; congruence |].
      intros f' d' [= <-] Hd. assert (d' = d) as -> by congruence.
      split; [done |].
      destruct (message_content (first_choice d)) as [c|]; simpl; [| done].
      by destruct (String.eqb_spec c EmptyString).
    + split_and!; [done | done | done |].
      intros f' d' [= <-] Hd. congruence.
Qed.

(** X13.  Before any dispatch, POST fails without touching the store: with
    no API key (absent or empty) it answers 500 "Missing OpenAI API key";
    with a key, a rejected first request makes it throw, a response outside
    2xx is answered 500 with the upstream text unchanged, and a 2xx response
    whose body is no JSON makes it throw. *)
Theorem POST_early_exits env req w :
  (OPENAI_API_KEY env = None ∨ OPENAI_API_KEY env = Some EmptyString →
   POST JSON_parse JSON_stringify env req w
     = (Returns (mkHttpResponse 500 (error_body "Missing OpenAI API key")), w))
  ∧ (∀ apiKey, OPENAI_API_KEY env = Some apiKey → apiKey ≠ EmptyString →
       let answer := chat_completions env (first_request apiKey req) in
       (∀ e, answer = Rejected e →
          POST JSON_parse JSON_stringify env req w = (Throws e, w))
       ∧ (∀ f, answer = Responded f → ok f = false →
            POST JSON_parse JSON_stringify env req w
              = (Returns (mkHttpResponse 500 (error_body (text f))), w))
       ∧ (∀ f, answer = Responded f → ok f = true → json f = None →
            POST JSON_parse JSON_stringify env req w
              = (Throws (SyntaxError "Unexpected token in JSON"), w))).
Proof.
  split.
  - intros [Hkey | Hkey]; unfold POST; by rewrite Hkey.
  - intros apiKey Hkey Hne answer. unfold POST. rewrite Hkey.
    apply String.eqb_neq in Hne. rewrite Hne.
    fold (first_request apiKey req). fold answer. clearbody answer.
    unfold bind, fetch, ret, throw, response_json.
    split_and!.
    + by intros e ->.
    + intros f -> Hok. simpl. by rewrite Hok.
    + intros f -> Hok Hjson. simpl. by rewrite Hok, Hjson.
Qed.
End DispatchCoverage.


Lemma POST_after_handler_witness :
  let failed := Responded (mkFetchResponse false "upstream error" (Some (Chat.mkCompletion None))) in
  let r := POST sample_JSON_parse sample_JSON_stringify
             (sample_env_with (sample_call "triggerSelfHealing" "{}") failed)
             sample_request (sample_world no_faults) in
  r.1 = Returns (mkHttpResponse 200 (reply "Action completed."))
  ∧ Machine.current_status <$> machines (db r.2) = ["Available"; "In Use"; "Offline"].
Proof.
  intros failed r.
  destruct (POST_after_handler sample_JSON_parse sample_JSON_stringify
              (sample_env_with (sample_call "triggerSelfHealing" "{}") failed)
              sample_request (sample_world no_faults) "sk-sample"
              (mkFetchResponse true EmptyString (Some (sample_call "triggerSelfHealing" "{}")))
              (sample_call "triggerSelfHealing" "{}")
              (Chat.mkCall "triggerSelfHealing" "{}") triggerSelfHealing
              "Self-healing complete. Reset 1 stuck machines and 1 stale bookings."
              (triggerSelfHealing ∅ (sample_world no_faults)).2)
    as (Hw & _ & _ & Hreply);
    [reflexivity | discriminate | reflexivity | reflexivity | reflexivity | reflexivity
    | reflexivity | reflexivity |].
  destruct (Hreply (mkFetchResponse false "upstream error" (Some (Chat.mkCompletion None)))
              (Chat.mkCompletion None) eq_refl eq_refl) as [Ho _].
  subst r. split; [exact Ho |]. rewrite Hw. reflexivity.
Defined.

Lemma POST_early_exits_witness :
  let w := sample_world no_faults in
  POST sample_JSON_parse sample_JSON_stringify
    (mkEnv (Some EmptyString) (λ _, Rejected (TypeError "unused"))) sample_request w
    = (Returns (mkHttpResponse 500 (error_body "Missing OpenAI API key")), w)
  ∧ POST sample_JSON_parse sample_JSON_stringify
      (mkEnv (Some "sk-sample")
         (λ _, Responded (mkFetchResponse false "Rate limit reached" None)))
      sample_request w
    = (Returns (mkHttpResponse 500 (error_body "Rate limit reached")), w).
Proof.
  intros w. split.
  - apply POST_early_exits. by right.
  - destruct (POST_early_exits sample_JSON_parse sample_JSON_stringify
                (mkEnv (Some "sk-sample")
                   (λ _, Responded (mkFetchResponse false "Rate limit reached" None)))
                sample_request w) as [_ H].
    destruct (H "sk-sample" eq_refl ltac:(discriminate)) as (_ & Hnot_ok & _).
    exact (Hnot_ok _ eq_refl eq_refl).
Defined.

(** ** The messages sent to the model *)

(** X14.  The prompt POST builds is the system instruction, one message per
    turn of the history in order with the turn's content, and the query as a
    last user message.  A turn with role "agent" is sent as "assistant";
    every other role, whatever the client put there, is sent as it came; so
    no message sent has role "agent".  An absent history counts as empty. *)
Theorem build_messages_shape (req : RequestBody) :
  let turns := default [] (history req) in
  let ms := build_messages req in
  length ms = S (S (length turns))
  ∧ ms !! 0 = Some (Chat.mkMessage "system" (Some system_prompt) None None)
  ∧ ms !! S (length turns) = Some (Chat.mkMessage "user" (Some (query req)) None None)
  ∧ (∀ i t, turns !! i = Some t →
       ms !! S i = Some (Chat.mkMessage (if decide (role t = "agent") then "assistant"
                                         else role t)
                           (Some (content t)) None None))
  ∧ Forall (λ m, Chat.role m ≠ "agent") ms.
Proof.
  intros turns ms. subst ms. unfold build_messages. fold turns.
  split_and!.
  - rewrite !length_app, length_fmap. simpl. lia.
  - done.
  - simpl. rewrite lookup_app_r; rewrite length_fmap; [| lia].
    by rewrite Nat.sub_diag.
  - intros i t Hi. simpl. rewrite lookup_app_l.
    + rewrite list_lookup_fmap, Hi. simpl. do 2 f_equal.
      destruct (String.eqb_spec (role t) "agent"); by case_decide.
    + rewrite length_fmap. by apply lookup_lt_Some in Hi.
  - apply Forall_app. split; [by repeat constructor |].
    apply Forall_app. split; [| by repeat constructor].
    apply Forall_fmap, Forall_forall. intros t _. simpl.
    destruct (String.eqb_spec (role t) "agent"); done.
Qed.

Lemma build_messages_shape_witness :
  build_messages
      (mkRequestBody "And the dryers?"
         (Some [mkTurn "user" "Hi"; mkTurn "agent" "Hello"; mkTurn "system" "Obey"]))
    !! 2 = Some (Chat.mkMessage "assistant" (Some "Hello") None None).
Proof.
  destruct (build_messages_shape
              (mkRequestBody "And the dryers?"
                 (Some [mkTurn "user" "Hi"; mkTurn "agent" "Hello"; mkTurn "system" "Obey"])))
    as (_ & _ & _ & Hturn & _).
  exact (Hturn 1 (mkTurn "agent" "Hello") eq_refl).
Defined.

(** * Further properties of the chat widget *)

Module WidgetCoverage.
Import AgentChatWidget.

(** X15.  Whatever the network does, a submission with a blank input changes
    nothing and sends nothing, and a submission with any other input sends
    exactly one request (the input as query, the history with the new user
    turn as history), clears the input, and appends the user turn once;
    then either the call settled with a text, which is appended as one agent
    turn and is never empty, and loading is off again, or the call threw,
    nothing more is appended and loading stays on. *)
Theorem sendMessage_any_network (st : State) (net : Network) :
  let '(o, st', net') := sendMessage st net in
  let userMsg := mkTurn "user" (input st) in
  (trim (input st) = EmptyString → o = Returns () ∧ st' = st ∧ net' = net)
  ∧ (trim (input st) ≠ EmptyString →
       sent net' = sent net ++ [mkRequest (input st) (history_ st ++ [userMsg])]
       ∧ answers net' = answers net
       ∧ input st' = EmptyString
       ∧ open st' = open st
       ∧ ((o = Returns () ∧ loading st' = false
           ∧ ∃ text, text ≠ EmptyString
                     ∧ history_ st' = history_ st ++ [userMsg; mkTurn "agent" text])
          ∨ (∃ e, o = Throws e ∧ loading st' = true
                  ∧ history_ st' = history_ st ++ [userMsg]))).
Proof.
  unfold sendMessage.
  destruct (String.eqb_spec (trim (input st)) EmptyString) as [Hblank | Hinput].
  { split; [done | by intros ?]. }
  unfold agentChat, fetch_agent_chat.
  destruct (answers net (length (sent net))) as [e | res]; simpl.
  { split; [done |]. intros _. split_and!; try done. right. by exists e. }
  destruct (ok res); simpl.
  - destruct (json res) as [data|]; simpl.
    + split; [done |]. intros _. split_and!; try done. left.
      split_and!; try done.
      exists (or_string (reply data) "Sorry, I could not generate a response.").
      split; [| by rewrite <- app_assoc].
      destruct (reply data) as [c|]; simpl; [| done].
      by destruct (String.eqb_spec c EmptyString).
    + split; [done |]. intros _. split_and!; try done. right. by eexists.
  - split; [done |]. intros _. split_and!; try done. left.
    split_and!; try done. eexists. split; [| by rewrite <- app_assoc]. done.
Qed.

Lemma sendMessage_any_network_witness :
  let st := mkState true "Add a dryer" false [] in
  let net := mkNetwork (λ _, Responded (mkFetchResponse true EmptyString None)) [] in
  let '(o, st', net') := sendMessage st net in
  sent net' = [mkRequest "Add a dryer" [mkTurn "user" "Add a dryer"]]
  ∧ input st' = EmptyString.
Proof.
  pose proof (sendMessage_any_network
                (mkState true "Add a dryer" false [])
                (mkNetwork (λ _, Responded (mkFetchResponse true EmptyString None)) []))
    as H.
  simpl. simpl in H. destruct H as [_ H].
  destruct (H ltac:(discriminate)) as (Hsent & _ & Hinput & _).
  split; [exact Hsent | exact Hinput].
Defined.

(** X16.  When the server answers 2xx with a JSON body, the submission
    settles, and the agent turn it appends holds the body's [reply] when that
    is a non-empty string and "Sorry, I could not generate a response."
    when it is absent or empty. *)
Theorem sendMessage_reply (st : State) (net : Network) res data :
  trim (input st) ≠ EmptyString →
  answers net (length (sent net)) = Responded res →
  ok res = true →
  json res = Some data →
  ∃ text,
    sendMessage st net =
      (Returns (),
       mkState (open st) EmptyString false
         (history_ st ++ [mkTurn "user" (input st); mkTurn "agent" text]),
       mkNetwork (answers net)
         (sent net ++ [mkRequest (input st) (history_ st ++ [mkTurn "user" (input st)])]))
    ∧ (∀ c, reply data = Some c → c ≠ EmptyString → text = c)
    ∧ (reply data = None ∨ reply data = Some EmptyString →
       text = "Sorry, I could not generate a response.").
Proof.
  intros Hinput Hanswer Hok Hjson. unfold sendMessage.
  apply String.eqb_neq in Hinput. rewrite Hinput.
  unfold agentChat, fetch_agent_chat. rewrite Hanswer, Hok. simpl. rewrite Hjson.
  eexists. split; [| split].
  - unfold setLoading, setHistory, setInput. simpl. by rewrite <- app_assoc.
  - intros c -> Hc. simpl. apply String.eqb_neq in Hc. by rewrite Hc.
  - by intros [-> | ->].
Qed.

Lemma sendMessage_reply_witness :
  let st := mkState true "Any offline machines?" false [] in
  let net := mkNetwork
               (λ _, Responded (mkFetchResponse true EmptyString
                                  (Some (mkAnswer (Some "W3 is offline."))))) [] in
  history_ (sendMessage st net).1.2
    = [mkTurn "user" "Any offline machines?"; mkTurn "agent" "W3 is offline."].
Proof.
  intros st net.
  destruct (sendMessage_reply st net
              (mkFetchResponse true EmptyString (Some (mkAnswer (Some "W3 is offline."))))
              (mkAnswer (Some "W3 is offline.")))
    as (text & Hsend & Hgiven & _);
    [discriminate | reflexivity | reflexivity | reflexivity |].
  rewrite Hsend. simpl.
  by rewrite (Hgiven "W3 is offline." eq_refl ltac:(discriminate)).
Defined.

(** X17.  After a submission that settled, the input field is enabled and
    the Send button is enabled as soon as the text typed is not blank; after
    a submission that threw, both stay disabled whatever text is put in the
    field. *)
Theorem controls_after_submission (st : State) (net : Network) (v : string) :
  trim (input st) ≠ EmptyString →
  let '(o, st', _) := sendMessage st net in
  (o = Returns () →
   input_disabled (setInput v st') = false
   ∧ send_disabled (setInput v st') = String.eqb (trim v) EmptyString)
  ∧ (∀ e, o = Throws e →
     input_disabled (setInput v st') = true ∧ send_disabled (setInput v st') = true).
Proof.
  intros Hinput. unfold sendMessage.
  apply String.eqb_neq in Hinput. rewrite Hinput.
  destruct (agentChat _ _ net) as [[text | e] net']; simpl.
  - split; [done |]. intros e. discriminate.
  - split; [discriminate |]. done.
Qed.

Lemma controls_after_submission_witness :
  let st := mkState true "Add a dryer" false [] in
  let net := mkNetwork (λ _, Rejected (TypeError "Failed to fetch")) [] in
  send_disabled (setInput "Add a dryer" (sendMessage st net).1.2) = true.
Proof.
  intros st net.
  pose proof (controls_after_submission st net "Add a dryer" ltac:(discriminate)) as H.
  simpl in H. destruct H as [_ H].
  exact (proj2 (H (TypeError "Failed to fetch") eq_refl)).
Defined.

(** What a submission that settled leaves behind. *)
Lemma sendMessage_settled (st st1 : State) (net net1 : Network) :
  trim (input st) ≠ EmptyString →
  sendMessage st net = (Returns (), st1, net1) →
  ∃ text,
    st1 = mkState (open st) EmptyString false
            (history_ st ++ [mkTurn "user" (input st); mkTurn "agent" text])
    ∧ net1 = mkNetwork (answers net)
               (sent net ++ [mkRequest (input st) (history_ st ++ [mkTurn "user" (input st)])]).
Proof.
  intros Hinput. unfold sendMessage.
  apply String.eqb_neq in Hinput. rewrite Hinput.
  unfold agentChat, fetch_agent_chat.
  destruct (answers net (length (sent net))) as [e | res]; simpl; [done |].
  destruct (ok res); simpl; [destruct (json res); simpl; [| done] |];
    intros [= <- <-]; eexists; (split; [| done]);
    unfold setLoading, setHistory, setInput; simpl; by rewrite <- app_assoc.
Qed.

(** What any submission of a non-blank input sends, and the least it leaves
    in the history. *)
Lemma sendMessage_sends (st : State) (net : Network) :
  trim (input st) ≠ EmptyString →
  sent (sendMessage st net).2
    = sent net ++ [mkRequest (input st) (history_ st ++ [mkTurn "user" (input st)])]
  ∧ ∃ tail, history_ (sendMessage st net).1.2
            = history_ st ++ [mkTurn "user" (input st)] ++ tail.
Proof.
  intros Hinput. unfold sendMessage.
  apply String.eqb_neq in Hinput. rewrite Hinput.
  unfold agentChat, fetch_agent_chat.
  destruct (answers net (length (sent net))) as [e | res]; simpl.
  { split; [done |]. by exists []. }
  destruct (ok res); simpl; [destruct (json res); simpl |];
    (split; [done |]);
    try (eexists [_]; by rewrite <- app_assoc).
  by exists [].
Qed.

(** X18.  Submissions chain: after a submission that settled with some text,
    the next submission sends the whole conversation so far (the earlier
    history, the first user turn, the agent turn with that text, and the new
    user turn) and keeps those four pieces in the history in this order. *)
Theorem sendMessage_twice (st st1 : State) (net net1 : Network) (v : string) :
  trim (input st) ≠ EmptyString →
  trim v ≠ EmptyString →
  sendMessage st net = (Returns (), st1, net1) →
  ∃ text,
    history_ st1 = history_ st ++ [mkTurn "user" (input st); mkTurn "agent" text]
    ∧ last (sent (sendMessage (setInput v st1) net1).2)
      = Some (mkRequest v (history_ st ++ [ mkTurn "user" (input st);
                                            mkTurn "agent" text;
                                            mkTurn "user" v ]))
    ∧ ∃ tail, history_ (sendMessage (setInput v st1) net1).1.2
              = history_ st ++ [ mkTurn "user" (input st); mkTurn "agent" text;
                                 mkTurn "user" v ] ++ tail.
Proof.
  intros Hinput Hv Hfirst.
  destruct (sendMessage_settled st st1 net net1 Hinput Hfirst) as (text & -> & ->).
  exists text. split; [done |].
  destruct (sendMessage_sends
              (setInput v (mkState (open st) EmptyString false
                             (history_ st ++ [mkTurn "user" (input st); mkTurn "agent" text])))
              (mkNetwork (answers net)
                 (sent net ++ [mkRequest (input st) (history_ st ++ [mkTurn "user" (input st)])])))
    as [Hsent (tail & Hhist)]; [done |].
  split.
  - rewrite Hsent. simpl. rewrite last_snoc. by rewrite <- app_assoc.
  - exists tail. rewrite Hhist. simpl. by rewrite <- app_assoc.
Qed.

Lemma sendMessage_twice_witness :
  let answer text := Responded (mkFetchResponse true EmptyString (Some (mkAnswer (Some text)))) in
  let st := mkState true "Hi" false [] in
  let net := mkNetwork (λ k, answer (if Nat.eqb k 0 then "Hello" else "W3 is offline")) [] in
  let first := sendMessage st net in
  last (sent (sendMessage (setInput "Any offline machines?" first.1.2) first.2).2)
    = Some (mkRequest "Any offline machines?"
              [ mkTurn "user" "Hi"; mkTurn "agent" "Hello";
                mkTurn "user" "Any offline machines?" ]).
Proof.
  intros answer st net first.
  destruct (sendMessage_twice st first.1.2 net first.2 "Any offline machines?")
    as (text & Hh & Hlast & _); [discriminate | discriminate | reflexivity |].
  rewrite Hlast. simpl in Hh. by injection Hh as <-.
Defined.
End WidgetCoverage.

(** * The widget and the route together *)

(** X19.  The history a submission sends already ends with the new user turn,
    and the route appends the query after the history: the prompt built from
    a widget request is the system instruction, the earlier turns, and the
    text just typed as two consecutive user messages. *)
Theorem widget_prompt_repeats_user_turn (st : AgentChatWidget.State)
    (net : AgentChatWidget.Network) :
  AgentChatWidget.trim (AgentChatWidget.input st) ≠ EmptyString →
  ∃ rq,
    last (AgentChatWidget.sent (AgentChatWidget.sendMessage st net).2) = Some rq
    ∧ build_messages (request_body rq)
      = [Chat.mkMessage "system" (Some system_prompt) None None]
        ++ ((λ m, Chat.mkMessage
                    (if String.eqb (role m) "agent" then "assistant" else role m)
                    (Some (content m)) None None)
            <$> AgentChatWidget.history_ st)
        ++ [ Chat.mkMessage "user" (Some (AgentChatWidget.input st)) None None;
             Chat.mkMessage "user" (Some (AgentChatWidget.input st)) None None ].
Proof.
  intros Hinput.
  destruct (WidgetCoverage.sendMessage_sends st net Hinput) as [Hsent _].
  eexists. split; [by rewrite Hsent, last_snoc |].
  unfold build_messages, request_body. simpl.
  rewrite fmap_app. simpl. by rewrite <- app_assoc.
Qed.

Lemma widget_prompt_repeats_user_turn_witness :
  ∃ rq,
    last (AgentChatWidget.sent
            (AgentChatWidget.sendMessage
               (AgentChatWidget.mkState true "Add a dryer" false [mkTurn "agent" "Hello"])
               (AgentChatWidget.mkNetwork (λ _, Rejected (TypeError "Failed to fetch")) [])).2)
      = Some rq
    ∧ Chat.content <$> build_messages (request_body rq)
      = [Some system_prompt; Some "Hello"; Some "Add a dryer"; Some "Add a dryer"].
Proof.
  destruct (widget_prompt_repeats_user_turn
              (AgentChatWidget.mkState true "Add a dryer" false [mkTurn "agent" "Hello"])
              (AgentChatWidget.mkNetwork (λ _, Rejected (TypeError "Failed to fetch")) []))
    as (rq & Hlast & Hprompt); [discriminate |].
  exists rq. split; [exact Hlast |]. by rewrite Hprompt.
Defined.

(** * One call per turn *)

Section OneCall.
Variable JSON_parse : string → option Args.
Variable JSON_stringify : JsValue → option string.

Lemma follow_up_world env apiKey messages fc result w :
  (follow_up JSON_stringify env apiKey messages fc result w).2 = w.
Proof.
  unfold follow_up, bind, fetch, response_json, ret, throw.
  destruct (chat_completions env _) as [e | f]; simpl; [done |].
  by destruct (json f).
Qed.

(** X20.  Whatever the key, the request and the completion service are, one
    of two things holds of a turn.  Either the first response is a 2xx JSON
    body whose first choice signals a call of a name registered in
    [functionMap], and POST leaves the world exactly as one run of that
    handler on the parsed arguments of that call leaves it; or the first
    response names no registered handler, and POST leaves the world as it
    found it.  So a turn never runs two handlers, never runs a handler the
    model did not name, and never writes the store by itself. *)
Theorem POST_at_most_one_handler (env : Env) (req : RequestBody) (w : World) :
  let r := POST JSON_parse JSON_stringify env req w in
  (∃ apiKey response data fc (h : Handler),
     OPENAI_API_KEY env = Some apiKey
     ∧ apiKey ≠ EmptyString
     ∧ chat_completions env (first_request apiKey req) = Responded response
     ∧ ok response = true
     ∧ json response = Some data
     ∧ function_call_signal (first_choice data) = Some fc
     ∧ functionMap !! Chat.name fc = Some h
     ∧ r.2 = (h (default ∅ (JSON_parse (Chat.arguments fc))) w).2)
  ∨ ((∀ apiKey response data fc,
        OPENAI_API_KEY env = Some apiKey →
        apiKey ≠ EmptyString →
        chat_completions env (first_request apiKey req) = Responded response →
        ok response = true →
        json response = Some data →
        function_call_signal (first_choice data) = Some fc →
        functionMap !! Chat.name fc = None)
     ∧ r.2 = w).
Proof.
  intros r. subst r.
  remember (POST JSON_parse JSON_stringify env req w) as r eqn:Hr.
  unfold POST in Hr.
  destruct (OPENAI_API_KEY env) as [apiKey|] eqn:Hkey;
    [| right; split; [intros; congruence | by subst r]].
  destruct (String.eqb_spec apiKey EmptyString) as [Hempty | Hne];
    [right; split; [intros; congruence | by subst r] |].
  fold (first_request apiKey req) in Hr.
  unfold bind, fetch, response_json, ret, throw in Hr.
  destruct (chat_completions env (first_request apiKey req)) as [e | response] eqn:Hfetch;
    [right; split; [intros; congruence | by subst r] |].
  destruct (ok response) eqn:Hok; simpl in Hr;
    [| right; split; [intros; congruence | by subst r]].
  destruct (json response) as [data|] eqn:Hjson;
    [| right; split; [intros; congruence | by subst r]].
  destruct (function_call_signal (first_choice data)) as [fc|] eqn:Hsig;
    [| right; split; [intros; congruence | by subst r]].
  unfold functionMap_get in Hr.
  destruct (functionMap !! Chat.name fc) as [h|] eqn:Hh.
  - left. exists apiKey, response, data, fc, h. split_and!; try done. subst r.
    unfold call_and_follow_up, call, bind, ret.
    destruct (h _ w) as [[result | e] w']; simpl; [| done].
    apply follow_up_world.
  - right. split; [intros; congruence |]. subst r.
    destruct (Object_prototype !! Chat.name fc) as [m|]; simpl; [| done].
    unfold call_and_follow_up, call, bind.
    destruct (call_inherited m _); simpl; [| done].
    apply follow_up_world.
Qed.
End OneCall.
